(** * AChoreographer: the per-thread frame-callback scheduler

    A shallow embedding of [libs/nativedisplay/AChoreographer.cpp] and
    the properties of its scheduler that the design document states.

    Conventions of the embedding.
    - [nsecs_t] is [int64_t]; values are integers of [Z], and the one
      arithmetic operation of the class, [now + delay], is undefined when
      its result leaves the 64-bit range (signed overflow).
    - Function and data pointers are addresses in [N]; [nullptr] is [0].
    - [systemTime(SYSTEM_TIME_MONOTONIC)] and
      [std::this_thread::get_id()] are inputs: every method that reads
      the clock takes the reading as its argument [now], every method
      that asks for the running thread takes it as [caller].
    - Calls that leave the class (the looper, the display-event
      dispatcher the class derives from, the client's handlers, the log)
      are recorded, in program order, in a list of [event]s.
    - A call of a client's handler is recorded as an event and nothing
      more: what the handler does in its turn (it runs outside [mLock]
      and may post again) is a later entry into the class, not a part
      of the method that makes the call.
    - Each method is embedded as it runs alone; [mLock] serialises the
      accesses to the fields and is not represented. *)

From stdpp Require Import base list sorting gmap strings.

Open Scope Z_scope.

(** ** Scalars and pointers *)

Abbreviation nsecs_t := Z (only parsing).
Abbreviation thread_id := N (only parsing).
Abbreviation pointer := N (only parsing).
Abbreviation status_t := Z (only parsing).

Definition nullptr : N := 0%N.
Definition OK : Z := 0.

Definition INT64_MIN : Z := - 2 ^ 63.
Definition INT64_MAX : Z := 2 ^ 63 - 1.

(** [long] is 64 bits wide on the 64-bit ABIs and 32 bits wide on the
    32-bit ones; these are the conversions of an [nsecs_t] to it. *)
Definition long64 (t : Z) : Z := t.
Definition long32 (t : Z) : Z := (t + 2 ^ 31) `mod` 2 ^ 32 - 2 ^ 31.

(** ** The data of the file *)

(** [struct FrameCallback]. *)
Record FrameCallback := {
  callback : pointer;     (* AChoreographer_frameCallback *)
  callback64 : pointer;   (* AChoreographer_frameCallback64 *)
  data : pointer;
  dueTime : nsecs_t
}.

(** [FrameCallback::operator<]: flipped on purpose, so that the callback
    due soonest is the greatest element. *)
Definition FrameCallback_lt (lhs rhs : FrameCallback) : bool :=
  bool_decide (dueTime lhs > dueTime rhs).

(** Callbacks in the order of their due times. *)
Definition due_le (x y : FrameCallback) : Prop := dueTime x ≤ dueTime y.

(** A callback with a handler to call. *)
Definition has_handler (cb : FrameCallback) : Prop :=
  callback64 cb ≠ nullptr ∨ callback cb ≠ nullptr.

Global Instance has_handler_dec cb : Decision (has_handler cb).
Proof. unfold has_handler. apply _. Defined.

(** [struct RefreshRateCallback]. *)
Record RefreshRateCallback := {
  rr_callback : pointer;  (* AChoreographer_refreshRateCallback *)
  rr_data : pointer
}.

Global Instance FrameCallback_eq_dec : EqDecision FrameCallback.
Proof. solve_decision. Defined.
Global Instance RefreshRateCallback_eq_dec : EqDecision RefreshRateCallback.
Proof. solve_decision. Defined.

(** [struct Message] of the looper: only its field [what] is used. *)
Record Message := { what : Z }.
Definition MSG_SCHEDULE_CALLBACKS : Z := 0.
Definition MSG_SCHEDULE_VSYNC : Z := 1.

(** [ISurfaceComposer::ConfigChanged]. *)
Inductive ConfigChanged := eConfigChangedSuppress | eConfigChangedDispatch.

(** The calls that leave the class. *)
Inductive event :=
  | ScheduleVsync                                  (* scheduleVsync() *)
  | ToggleConfigEvents (flag : ConfigChanged)      (* toggleConfigEvents(flag) *)
  | SendMessage (m : Message)                      (* mLooper->sendMessage(this, m) *)
  | SendMessageDelayed (delay : nsecs_t) (m : Message)
  | CallFrame (f : pointer) (frameTime : Z) (d : pointer)      (* cb.callback(..) *)
  | CallFrame64 (f : pointer) (frameTime : Z) (d : pointer)    (* cb.callback64(..) *)
  | CallRefreshRate (f : pointer) (period : Z) (d : pointer)
  | LogW (text : string).

Global Instance Message_eq_dec : EqDecision Message.
Proof. solve_decision. Defined.
Global Instance ConfigChanged_eq_dec : EqDecision ConfigChanged.
Proof. solve_decision. Defined.
Global Instance event_eq_dec : EqDecision event.
Proof. solve_decision. Defined.

(** The calls of frame handlers. *)
Definition is_frame_call (e : event) : Prop :=
  match e with
  | CallFrame _ _ _ | CallFrame64 _ _ _ => True
  | _ => False
  end.

Global Instance is_frame_call_dec e : Decision (is_frame_call e).
Proof. destruct e; simpl; apply _. Defined.

(** ** Executions without a defined result *)

Inductive fault :=
  | SignedOverflow     (* an nsecs_t sum outside the 64-bit range *)
  | TopOfEmptyQueue    (* top() of an empty priority_queue *)
  | NullCall.          (* a call through a null function pointer *)

Inductive result (A : Type) :=
  | Done (a : A)
  | Undefined (f : fault).
Arguments Done {A} a.
Arguments Undefined {A} f.

(** ** [std::priority_queue<T>]

    The container comes from the C++ library; the scheduler relies on
    its contract only, which is what this interface records.
    [pq_items] lists the elements a queue holds.  [pq_top] is [None]
    on an empty queue, where [top()] has no defined result; otherwise
    it is an element that is not less than any other. *)
Class PriorityQueue (T : Type) (less : T → T → bool) (Q : Type) := {
  pq_new : Q;
  pq_items : Q → list T;
  pq_empty : Q → bool;
  pq_size : Q → nat;
  pq_push : T → Q → Q;
  pq_top : Q → option T;
  pq_pop : Q → Q;
  pq_new_items : pq_items pq_new = [];
  pq_empty_items q : pq_empty q = bool_decide (pq_items q = []);
  pq_size_items q : pq_size q = length (pq_items q);
  pq_push_items x q : pq_items (pq_push x q) ≡ₚ x :: pq_items q;
  pq_top_None q : pq_top q = None ↔ pq_items q = [];
  pq_top_greatest q x :
    pq_top q = Some x → x ∈ pq_items q ∧ ∀ y, y ∈ pq_items q → less x y = false;
  pq_pop_items q x : pq_top q = Some x → pq_items q ≡ₚ x :: pq_items (pq_pop q)
}.

(** ** [std::remove_if]

    [std::remove_if(first, last, pred)] on a vector [v]: the elements
    that do not satisfy [pred] are assigned, in order, to the front of
    the range, and the position after the last one assigned is
    returned.  The loop reads each element before any assignment can
    reach its position, so [rest], the elements not yet visited, is
    read from the vector as it was. *)
Fixpoint remove_if_loop {A} (pred : A → bool) (rest : list A)
    (first : nat) (v : list A) : list A * nat :=
  match rest with
  | [] => (v, first)
  | x :: rest' =>
      if pred x then remove_if_loop pred rest' first v
      else remove_if_loop pred rest' (S first) (<[first := x]> v)
  end.
Definition remove_if {A} (pred : A → bool) (v : list A) : list A * nat :=
  remove_if_loop pred v 0%nat v.

(** ** The scheduler *)

Section Choreographer.
Context {Q : Type} `{!PriorityQueue FrameCallback FrameCallback_lt Q}.

(** The narrow handler form takes its frame time as a [long], whose
    width is the platform's; [to_long] is that conversion of an
    [nsecs_t]. *)
Variable to_long : Z → Z.

(** The fields of [class Choreographer]. *)
Record Choreographer := {
  mFrameCallbacks : Q;
  mRefreshRateCallbacks : list RefreshRateCallback;
  mVsyncPeriod : nsecs_t;
  mLooper : pointer;
  mThreadId : thread_id;
  mInternalDisplayId : option N
}.

(** [Choreographer::Choreographer(looper)], run by [thread];
    [displayId] is what [SurfaceComposerClient::getInternalDisplayId()]
    returns. *)
Definition Choreographer_new (looper : pointer) (thread : thread_id)
    (displayId : option N) : Choreographer :=
  {| mFrameCallbacks := pq_new;
     mRefreshRateCallbacks := [];
     mVsyncPeriod := 0;
     mLooper := looper;
     mThreadId := thread;
     mInternalDisplayId := displayId |}.

(** The callbacks that wait in the queue. *)
Definition queued (s : Choreographer) : list FrameCallback :=
  pq_items (mFrameCallbacks s).

(** *** Methods as state transformers

    A method takes the object to its new state and the events it
    emitted, or has no defined result. *)
Definition M (A : Type) : Type :=
  Choreographer → result (A * Choreographer * list event).

Global Instance M_ret : MRet M := λ A a s, Done (a, s, []).
Global Instance M_bind : MBind M := λ A B f m s,
  match m s with
  | Undefined e => Undefined e
  | Done (a, s1, ev1) =>
      match f a s1 with
      | Undefined e => Undefined e
      | Done (b, s2, ev2) => Done (b, s2, ev1 ++ ev2)
      end
  end.

Definition get {A} (field : Choreographer → A) : M A :=
  λ s, Done (field s, s, []).
Definition emit (e : event) : M unit :=
  λ s, Done ((), s, [e]).
Definition undefined {A} (f : fault) : M A :=
  λ _, Undefined f.

(** Assignments to the fields. *)
Definition with_mFrameCallbacks (q : Q) (s : Choreographer) : Choreographer :=
  {| mFrameCallbacks := q;
     mRefreshRateCallbacks := mRefreshRateCallbacks s;
     mVsyncPeriod := mVsyncPeriod s;
     mLooper := mLooper s;
     mThreadId := mThreadId s;
     mInternalDisplayId := mInternalDisplayId s |}.
Definition with_mRefreshRateCallbacks (v : list RefreshRateCallback)
    (s : Choreographer) : Choreographer :=
  {| mFrameCallbacks := mFrameCallbacks s;
     mRefreshRateCallbacks := v;
     mVsyncPeriod := mVsyncPeriod s;
     mLooper := mLooper s;
     mThreadId := mThreadId s;
     mInternalDisplayId := mInternalDisplayId s |}.
Definition with_mVsyncPeriod (p : nsecs_t) (s : Choreographer) : Choreographer :=
  {| mFrameCallbacks := mFrameCallbacks s;
     mRefreshRateCallbacks := mRefreshRateCallbacks s;
     mVsyncPeriod := p;
     mLooper := mLooper s;
     mThreadId := mThreadId s;
     mInternalDisplayId := mInternalDisplayId s |}.

Definition modify (f : Choreographer → Choreographer) : M unit :=
  λ s, Done ((), f s, []).
Definition set_mFrameCallbacks (f : Q → Q) : M unit :=
  modify (λ s, with_mFrameCallbacks (f (mFrameCallbacks s)) s).
Definition set_mRefreshRateCallbacks
    (f : list RefreshRateCallback → list RefreshRateCallback) : M unit :=
  modify (λ s, with_mRefreshRateCallbacks (f (mRefreshRateCallbacks s)) s).
Definition set_mVsyncPeriod (p : nsecs_t) : M unit :=
  modify (with_mVsyncPeriod p).

(** [for (const auto& x : l) body(x)]. *)
Fixpoint for_each {A} (l : list A) (body : A → M unit) : M unit :=
  match l with
  | [] => mret ()
  | x :: l' => body x ≫= λ _, for_each l' body
  end.

(** The sum of two [nsecs_t]. *)
Definition nsecs_add (a b : nsecs_t) : M nsecs_t :=
  if bool_decide (INT64_MIN ≤ a + b ≤ INT64_MAX) then mret (a + b)
  else undefined SignedOverflow.

(** [mFrameCallbacks.top()]. *)
Definition top : M FrameCallback :=
  q ← get mFrameCallbacks;
  match pq_top q with
  | Some x => mret x
  | None => undefined TopOfEmptyQueue
  end.

(** A call through a function pointer. *)
Definition call (f : pointer) (e : event) : M unit :=
  if bool_decide (f = nullptr) then undefined NullCall else emit e.

(** [DisplayEventDispatcher::scheduleVsync] and
    [DisplayEventDispatcher::toggleConfigEvents], of the base class. *)
Definition scheduleVsync : M unit := emit ScheduleVsync.
Definition toggleConfigEvents (flag : ConfigChanged) : M unit :=
  emit (ToggleConfigEvents flag).

(** [Choreographer::postFrameCallbackDelayed]. *)
Definition postFrameCallbackDelayed (caller : thread_id) (now : nsecs_t)
    (cb cb64 data : pointer) (delay : nsecs_t) : M unit :=
  due ← nsecs_add now delay;
  let callback :=
    {| callback := cb; callback64 := cb64; data := data; dueTime := due |} in
  _ ← set_mFrameCallbacks (pq_push callback);
  if bool_decide (dueTime callback ≤ now) then
    owner ← get mThreadId;
    if bool_decide (caller ≠ owner) then
      emit (SendMessage {| what := MSG_SCHEDULE_VSYNC |})
    else
      scheduleVsync
  else
    emit (SendMessageDelayed delay {| what := MSG_SCHEDULE_CALLBACKS |}).

(** [Choreographer::registerRefreshRateCallback]. *)
Definition registerRefreshRateCallback (cb data : pointer) : M unit :=
  _ ← set_mRefreshRateCallbacks
        (λ v, v ++ [{| rr_callback := cb; rr_data := data |}]);
  toggleConfigEvents eConfigChangedDispatch.

(** [Choreographer::unregisterRefreshRateCallback].  The position that
    [std::remove_if] returns is dropped. *)
Definition unregisterRefreshRateCallback (cb : pointer) : M unit :=
  _ ← set_mRefreshRateCallbacks
        (λ v, fst (remove_if (λ callback, bool_decide (cb = rr_callback callback)) v));
  v ← get mRefreshRateCallbacks;
  if bool_decide (v = []) then toggleConfigEvents eConfigChangedSuppress
  else mret ().

(** [Choreographer::scheduleCallbacks]. *)
Definition scheduleCallbacks (now : nsecs_t) : M unit :=
  t ← top;
  if bool_decide (dueTime t ≤ now) then scheduleVsync else mret ().

(** The loop of [dispatchVsync]:
    [while (!mFrameCallbacks.empty() && mFrameCallbacks.top().dueTime < now)].
    Every round pops one element, so the loop makes at most as many
    rounds as the queue has elements when it starts; [rounds] is that
    bound. *)
Fixpoint drain (rounds : nat) (now : nsecs_t)
    (callbacks : list FrameCallback) : M (list FrameCallback) :=
  match rounds with
  | O => mret callbacks
  | S rounds' =>
      q ← get mFrameCallbacks;
      if pq_empty q then mret callbacks
      else
        t ← top;
        if bool_decide (dueTime t < now) then
          _ ← set_mFrameCallbacks pq_pop;
          drain rounds' now (callbacks ++ [t])
        else mret callbacks
  end.

(** The body of the second loop of [dispatchVsync]. *)
Definition invoke (timestamp : nsecs_t) (cb : FrameCallback) : M unit :=
  if bool_decide (callback64 cb ≠ nullptr) then
    emit (CallFrame64 (callback64 cb) timestamp (data cb))
  else if bool_decide (callback cb ≠ nullptr) then
    emit (CallFrame (callback cb) (to_long timestamp) (data cb))
  else mret ().

(** The calls one round of that loop makes, as a list. *)
Definition handler_calls (timestamp : nsecs_t) (cb : FrameCallback) : list event :=
  if bool_decide (callback64 cb ≠ nullptr) then
    [CallFrame64 (callback64 cb) timestamp (data cb)]
  else if bool_decide (callback cb ≠ nullptr) then
    [CallFrame (callback cb) (to_long timestamp) (data cb)]
  else [].

(** [Choreographer::dispatchVsync]; the display id and the count are
    ignored. *)
Definition dispatchVsync (now : nsecs_t) (timestamp : nsecs_t) : M unit :=
  q ← get mFrameCallbacks;
  callbacks ← drain (pq_size q) now [];
  for_each callbacks (invoke timestamp).

(** Vsyncs delivered one after the other, each given as the clock
    reading [dispatchVsync] takes and the timestamp of the vsync. *)
Definition dispatchVsyncs (vs : list (nsecs_t * nsecs_t)) : M unit :=
  for_each vs (λ v, dispatchVsync v.1 v.2).

(** The handler calls of a run of vsyncs that handled [batches]. *)
Definition batch_calls (vs : list (nsecs_t * nsecs_t))
    (batches : list (list FrameCallback)) : list event :=
  concat (zip_with (λ v batch, batch ≫= handler_calls v.2) vs batches).

(** [Choreographer::dispatchHotplug]: a verbose log line only. *)
Definition dispatchHotplug : M unit := mret ().

(** [Choreographer::dispatchConfigChanged]. *)
Definition dispatchConfigChanged (vsyncPeriod : nsecs_t) : M unit :=
  v ← get mRefreshRateCallbacks;
  for_each v (λ cb,
    period ← get mVsyncPeriod;
    if bool_decide (period ≠ vsyncPeriod) then
      _ ← call (rr_callback cb) (CallRefreshRate (rr_callback cb) vsyncPeriod (rr_data cb));
      set_mVsyncPeriod vsyncPeriod
    else mret ()).

(** [Choreographer::handleMessage]; [now] is read by
    [scheduleCallbacks] only. *)
Definition handleMessage (now : nsecs_t) (message : Message) : M unit :=
  if bool_decide (what message = MSG_SCHEDULE_CALLBACKS) then scheduleCallbacks now
  else if bool_decide (what message = MSG_SCHEDULE_VSYNC) then scheduleVsync
  else mret ().

(** [AChoreographer_postFrameCallback] and
    [AChoreographer_postFrameCallback64] of the NDK interface: the
    handle is the object itself, the handler goes to its own form and
    the other form is null. *)
Definition AChoreographer_postFrameCallback (caller : thread_id) (now : nsecs_t)
    (callback data : pointer) : M unit :=
  postFrameCallbackDelayed caller now callback nullptr data 0.
Definition AChoreographer_postFrameCallback64 (caller : thread_id) (now : nsecs_t)
    (callback data : pointer) : M unit :=
  postFrameCallbackDelayed caller now nullptr callback data 0.

(** *** Runs

    The entry points of the class, with what each takes from its
    surroundings, and a run of them in order on one object. *)
Inductive op :=
  | PostFrameCallbackDelayed (caller : thread_id) (now : nsecs_t)
      (cb cb64 data : pointer) (delay : nsecs_t)
  | RegisterRefreshRateCallback (cb data : pointer)
  | UnregisterRefreshRateCallback (cb : pointer)
  | HandleMessage (now : nsecs_t) (message : Message)
  | DispatchVsync (now timestamp : nsecs_t)
  | DispatchHotplug
  | DispatchConfigChanged (vsyncPeriod : nsecs_t).

Definition run_op (o : op) : M unit :=
  match o with
  | PostFrameCallbackDelayed caller now cb cb64 data delay =>
      postFrameCallbackDelayed caller now cb cb64 data delay
  | RegisterRefreshRateCallback cb data => registerRefreshRateCallback cb data
  | UnregisterRefreshRateCallback cb => unregisterRefreshRateCallback cb
  | HandleMessage now message => handleMessage now message
  | DispatchVsync now timestamp => dispatchVsync now timestamp
  | DispatchHotplug => dispatchHotplug
  | DispatchConfigChanged vsyncPeriod => dispatchConfigChanged vsyncPeriod
  end.

Definition run_ops (ops : list op) : M unit := for_each ops run_op.

(** The callbacks a run posts. *)
Definition posted (o : op) : list FrameCallback :=
  match o with
  | PostFrameCallbackDelayed _ now cb cb64 data delay =>
      [{| callback := cb; callback64 := cb64; data := data;
          dueTime := now + delay |}]
  | _ => []
  end.

(** The listeners a run registers. *)
Definition registered (o : op) : list RefreshRateCallback :=
  match o with
  | RegisterRefreshRateCallback cb data => [{| rr_callback := cb; rr_data := data |}]
  | _ => []
  end.
End Choreographer.

Arguments Choreographer Q : clear implicits.
Arguments M Q A : clear implicits.

(** ** The thread-local instance

    [gChoreographer] is [thread_local]: one pointer per thread, null
    until assigned.  [heap] holds the objects made by [new], and
    [initialized] the ones whose [initialize()] returned [OK]. *)
Section Registry.
Context {Q : Type} `{!PriorityQueue FrameCallback FrameCallback_lt Q}.

Record Process := {
  gChoreographer : gmap N N;
  heap : gmap N (Choreographer Q);
  initialized : gset N
}.

Definition Process_start : Process :=
  {| gChoreographer := ∅; heap := ∅; initialized := ∅ |}.

(** The value of [gChoreographer] in [thread]. *)
Definition slot (p : Process) (thread : thread_id) : pointer :=
  default nullptr (gChoreographer p !! thread).

(** What a call of [getForThread] takes from its surroundings: the
    calling thread, the result of [Looper::getForThread()] (null when
    the thread has prepared no looper), the address [new] returns, the
    internal display id the constructor reads, and the status
    [initialize()] returns. *)
Record call_env := {
  env_thread : thread_id;
  env_looper : pointer;
  env_new : pointer;
  env_displayId : option N;
  env_initialize : status_t
}.

(** [new] returns the address of storage that no object occupies. *)
Definition new_ok (p : Process) (c : call_env) : Prop :=
  env_new c ≠ nullptr ∧ heap p !! env_new c = None.

(** [Choreographer::getForThread]. *)
Definition getForThread (c : call_env) (p : Process)
    : pointer * Process * list event :=
  if bool_decide (slot p (env_thread c) = nullptr) then
    let looper := env_looper c in
    if bool_decide (looper = nullptr) then
      (nullptr, p, [LogW "No looper prepared for thread"])
    else
      let this := env_new c in
      let p1 :=
        {| gChoreographer := <[env_thread c := this]> (gChoreographer p);
           heap := <[this := Choreographer_new looper (env_thread c) (env_displayId c)]>
                     (heap p);
           initialized := initialized p |} in
      let result := env_initialize c in
      if bool_decide (result ≠ OK) then
        (nullptr, p1, [LogW "Failed to initialize"])
      else
        (slot p1 (env_thread c),
         {| gChoreographer := gChoreographer p1;
            heap := heap p1;
            initialized := {[this]} ∪ initialized p1 |},
         [])
  else (slot p (env_thread c), p, []).

(** [AChoreographer_getInstance]: the same pointer, cast. *)
Definition AChoreographer_getInstance (c : call_env) (p : Process)
    : pointer * Process * list event :=
  getForThread c p.

(** A sequence of calls: the pointers returned, in order, and the
    final state. *)
Fixpoint getForThread_calls (cs : list call_env) (p : Process)
    : list pointer * Process :=
  match cs with
  | [] => ([], p)
  | c :: cs' =>
      let '(r, p1, _) := getForThread c p in
      let '(rs, p2) := getForThread_calls cs' p1 in
      (r :: rs, p2)
  end.

(** [new] keeps its contract along a sequence of calls. *)
Fixpoint calls_ok (cs : list call_env) (p : Process) : Prop :=
  match cs with
  | [] => True
  | c :: cs' => new_ok p c ∧ calls_ok cs' (getForThread c p).1.2
  end.

(** Every object a thread holds was allocated, distinct threads hold
    distinct objects, and only allocated objects were initialised. *)
Definition Process_wf (p : Process) : Prop :=
  (∀ t, slot p t ≠ nullptr → is_Some (heap p !! slot p t)) ∧
  (∀ t1 t2, t1 ≠ t2 → slot p t1 ≠ nullptr → slot p t1 ≠ slot p t2) ∧
  (∀ a, a ∈ initialized p → is_Some (heap p !! a)).

(** The object a thread holds was constructed by that thread. *)
Definition owned_by_holder (p : Process) : Prop :=
  ∀ t o, slot p t ≠ nullptr → heap p !! slot p t = Some o → mThreadId o = t.
End Registry.

Arguments Process Q : clear implicits.

(** ** A priority queue

    One container that meets the interface: a list in arrival order,
    whose top is found by a scan. *)
Module ListQueue.
Fixpoint top (l : list FrameCallback) : option FrameCallback :=
  match l with
  | [] => None
  | x :: l' =>
      match top l' with
      | None => Some x
      | Some y => if FrameCallback_lt x y then Some y else Some x
      end
  end.

Fixpoint remove_first (x : FrameCallback) (l : list FrameCallback)
    : list FrameCallback :=
  match l with
  | [] => []
  | y :: l' => if decide (x = y) then l' else y :: remove_first x l'
  end.

Definition pop (l : list FrameCallback) : list FrameCallback :=
  match top l with
  | None => l
  | Some x => remove_first x l
  end.
End ListQueue.

(** The list queue meets the interface. *)
Module ListQueueFacts.
Import ListQueue.

Lemma top_None l : top l = None ↔ l = [].
Proof.
  destruct l as [|x l]; simpl; [done|].
  split; [|done]. destruct (top l); [|done]. by destruct (FrameCallback_lt x f).
Qed.

Lemma top_greatest l x :
  top l = Some x →
  x ∈ l ∧ ∀ y, y ∈ l → FrameCallback_lt x y = false.
Proof.
  revert x. induction l as [|a l IH]; intros x; simpl; [done|].
  destruct (top l) as [b|] eqn:Hb.
  - destruct (IH b eq_refl) as [Hin Hge].
    unfold FrameCallback_lt in *.
    case_bool_decide as Hab; intros [= <-].
    + split; [by right|]. intros y [->|Hy]%elem_of_cons.
      * apply bool_decide_eq_false. lia.
      * by apply Hge.
    + split; [by left|]. intros y [->|Hy]%elem_of_cons.
      * apply bool_decide_eq_false. lia.
      * specialize (Hge y Hy). apply bool_decide_eq_false in Hge.
        apply bool_decide_eq_false. lia.
  - intros [= <-]. apply top_None in Hb as ->.
    split; [by left|]. intros y ->%list_elem_of_singleton.
    apply bool_decide_eq_false. lia.
Qed.

Lemma remove_first_perm x l : x ∈ l → l ≡ₚ x :: remove_first x l.
Proof.
  induction l as [|y l IH]; simpl; [by intros ?%elem_of_nil|].
  destruct (decide (x = y)) as [->|Hne]; [done|].
  intros [->|Hin]%elem_of_cons; [done|].
  rewrite (IH Hin) at 1. apply Permutation_swap.
Qed.

Lemma pop_items l x : top l = Some x → l ≡ₚ x :: pop l.
Proof.
  intros Ht. unfold pop. rewrite Ht.
  apply remove_first_perm. by apply top_greatest.
Qed.

Lemma push_items (x : FrameCallback) l : l ++ [x] ≡ₚ x :: l.
Proof. by rewrite Permutation_app_comm. Qed.
End ListQueueFacts.

Global Instance list_queue :
    PriorityQueue FrameCallback FrameCallback_lt (list FrameCallback) := {|
  pq_new := [];
  pq_items l := l;
  pq_empty l := bool_decide (l = []);
  pq_size l := length l;
  pq_push x l := l ++ [x];
  pq_top := ListQueue.top;
  pq_pop := ListQueue.pop;
  pq_new_items := eq_refl;
  pq_empty_items l := eq_refl;
  pq_size_items l := eq_refl;
  pq_push_items := ListQueueFacts.push_items;
  pq_top_None := ListQueueFacts.top_None;
  pq_top_greatest := ListQueueFacts.top_greatest;
  pq_pop_items := ListQueueFacts.pop_items
|}.

(** The object that thread 1 constructs on the looper at address 100,
    over the list queue. *)
Definition fresh : Choreographer (list FrameCallback) :=
  Choreographer_new 100 1 None.

(** * Properties *)

(** ** [std::remove_if] *)
Section RemoveIf.
Context {A : Type}.

(** [std::remove_if] leaves the length of the vector as it was. *)
Lemma remove_if_loop_length (pred : A → bool) rest first (v : list A) :
  length (remove_if_loop pred rest first v).1 = length v.
Proof.
  revert first v. induction rest as [|x rest IH]; intros first v; simpl; [done|].
  destruct (pred x); [done|]. by rewrite IH, length_insert.
Qed.

Lemma remove_if_length (pred : A → bool) (v : list A) :
  length (remove_if pred v).1 = length v.
Proof. apply remove_if_loop_length. Qed.

(** The elements kept come first, in order; the positions after them
    hold what they held. *)
Lemma remove_if_loop_spec (pred : A → bool) rest first (v : list A) :
  (first + length rest ≤ length v)%nat →
  let kept := filter (λ x, pred x = false) rest in
  remove_if_loop pred rest first v =
    (take first v ++ kept ++ drop (first + length kept) v,
     (first + length kept)%nat).
Proof.
  revert first v. induction rest as [|x rest IH]; intros first v Hlen; simpl.
  - by rewrite Nat.add_0_r, take_drop.
  - simpl in Hlen. destruct (pred x) eqn:Hx.
    + rewrite filter_cons_False by (by rewrite Hx). apply IH. lia.
    + rewrite filter_cons_True by done. rewrite IH by (rewrite length_insert; lia).
      assert (<[first:=x]> v !! first = Some x) as Hat
        by (apply list_lookup_insert_eq; lia).
      rewrite (take_S_r _ _ _ Hat), take_insert_ge by lia.
      rewrite drop_insert_lt by lia. simpl.
      rewrite <- app_assoc. simpl. by rewrite Nat.add_succ_r.
Qed.

Lemma remove_if_spec (pred : A → bool) (v : list A) :
  let kept := filter (λ x, pred x = false) v in
  remove_if pred v = (kept ++ drop (length kept) v, length kept).
Proof. apply (remove_if_loop_spec pred v 0 v). simpl. lia. Qed.

End RemoveIf.

(** ** The scheduler *)
Section ChoreographerFacts.
Context {Q : Type} `{!PriorityQueue FrameCallback FrameCallback_lt Q}.
Variable to_long : Z → Z.
Implicit Types (s : Choreographer Q) (fc : FrameCallback) (now : Z).

Lemma run_bind {A B} (m : M Q A) (f : A → M Q B) s :
  (m ≫= f) s =
    match m s with
    | Undefined e => Undefined e
    | Done (a, s1, ev1) =>
        match f a s1 with
        | Undefined e => Undefined e
        | Done (b, s2, ev2) => Done (b, s2, ev1 ++ ev2)
        end
    end.
Proof. done. Qed.

Lemma run_get {A} (field : Choreographer Q → A) s :
  get field s = Done (field s, s, []).
Proof. done. Qed.

Lemma top_queued s x :
  pq_top (mFrameCallbacks s) = Some x →
  x ∈ queued s ∧ Forall (due_le x) (queued s).
Proof.
  intros [Hin Hge]%pq_top_greatest. split; [done|].
  apply Forall_forall. intros y Hy. specialize (Hge y Hy).
  apply bool_decide_eq_false in Hge. unfold due_le. lia.
Qed.

Lemma with_mFrameCallbacks_same s : with_mFrameCallbacks (mFrameCallbacks s) s = s.
Proof. by destruct s. Qed.
Lemma with_mFrameCallbacks_twice q1 q2 s :
  with_mFrameCallbacks q2 (with_mFrameCallbacks q1 s) = with_mFrameCallbacks q2 s.
Proof. done. Qed.
Lemma queued_with_mFrameCallbacks q s : queued (with_mFrameCallbacks q s) = pq_items q.
Proof. done. Qed.

Lemma drain_spec n now s acc :
  (length (queued s) ≤ n)%nat →
  ∃ batch q',
    drain n now acc s = Done (acc ++ batch, with_mFrameCallbacks q' s, []) ∧
    queued s ≡ₚ batch ++ pq_items q' ∧
    Forall (λ fc, dueTime fc < now) batch ∧
    Forall (λ fc, now ≤ dueTime fc) (pq_items q') ∧
    StronglySorted due_le batch.
Proof.
  revert s acc. induction n as [|n IH]; intros s acc Hn.
  - exists [], (mFrameCallbacks s). simpl.
    assert (queued s = []) as Hq by (apply length_zero_iff_nil; lia).
    rewrite app_nil_r, with_mFrameCallbacks_same.
    unfold queued in *. rewrite Hq.
    repeat split; constructor.
  - cbn [drain]. unfold mbind, M_bind, get at 1.
    rewrite pq_empty_items. fold (queued s).
    case_bool_decide as Hempty.
    + exists [], (mFrameCallbacks s).
      rewrite app_nil_r, with_mFrameCallbacks_same. fold (queued s). rewrite Hempty.
      repeat split; constructor.
    + unfold top, mbind, M_bind, get.
      destruct (pq_top (mFrameCallbacks s)) as [t|] eqn:Ht;
        [|by apply pq_top_None in Ht].
      destruct (top_queued _ _ Ht) as [Hin Hmin].
      pose proof (pq_pop_items _ _ Ht) as Hpop. fold (queued s) in Hpop.
      cbn [mret M_ret app].
      case_bool_decide as Hdue.
      * unfold set_mFrameCallbacks, modify.
        destruct (IH (with_mFrameCallbacks (pq_pop (mFrameCallbacks s)) s) (acc ++ [t]))
          as (batch & q' & Hrun & Hperm & Hlt & Hge & Hsorted).
        { rewrite queued_with_mFrameCallbacks.
          apply Permutation_length in Hpop.
          simpl in Hpop. lia. }
        rewrite Hrun. exists (t :: batch), q'.
        rewrite queued_with_mFrameCallbacks in Hperm.
        rewrite with_mFrameCallbacks_twice, <- app_assoc. simpl.
        split; [done|]. split; [by rewrite Hpop, Hperm|].
        split; [by constructor|]. split; [done|].
        constructor; [done|].
        rewrite Hpop, Hperm in Hmin.
        apply Forall_cons in Hmin as [_ Hmin].
        by apply Forall_app in Hmin as [? _].
      * exists [], (mFrameCallbacks s).
        rewrite app_nil_r, with_mFrameCallbacks_same. fold (queued s).
        split; [done|]. split; [done|]. split; [constructor|].
        split; [|constructor].
        eapply Forall_impl; [exact Hmin|]. unfold due_le. intros; simpl in *; lia.
Qed.

Lemma invoke_calls ts fc s :
  invoke to_long ts fc s = Done ((), s, handler_calls to_long ts fc).
Proof.
  unfold invoke, handler_calls. by repeat case_bool_decide.
Qed.

Lemma for_each_invoke ts batch s :
  for_each batch (invoke to_long ts) s = Done ((), s, batch ≫= handler_calls to_long ts).
Proof.
  induction batch as [|fc batch IH]; [done|].
  cbn [for_each]. unfold mbind at 1, M_bind. by rewrite invoke_calls, IH.
Qed.

Lemma dispatchVsync_spec now ts s :
  ∃ batch q',
    dispatchVsync to_long now ts s =
      Done ((), with_mFrameCallbacks q' s, batch ≫= handler_calls to_long ts) ∧
    queued s ≡ₚ batch ++ pq_items q' ∧
    Forall (λ fc, dueTime fc < now) batch ∧
    Forall (λ fc, now ≤ dueTime fc) (pq_items q') ∧
    StronglySorted due_le batch.
Proof.
  destruct (drain_spec (pq_size (mFrameCallbacks s)) now s [])
    as (batch & q' & Hrun & Hrest).
  { by rewrite pq_size_items. }
  exists batch, q'. split; [|done].
  unfold dispatchVsync, mbind, M_bind, get. rewrite Hrun. simpl.
  by rewrite for_each_invoke.
Qed.

Lemma filter_all {A} (P : A → Prop) `{!∀ x, Decision (P x)} (l : list A) :
  Forall P l → filter P l = l.
Proof.
  induction 1 as [|x l Hx _ IH]; [done|]. by rewrite filter_cons_True, IH.
Qed.
Lemma filter_none {A} (P : A → Prop) `{!∀ x, Decision (P x)} (l : list A) :
  Forall (λ x, ¬ P x) l → filter P l = [].
Proof.
  induction 1 as [|x l Hx _ IH]; [done|]. by rewrite filter_cons_False.
Qed.

Lemma split_by_due now (l batch rest : list FrameCallback) :
  l ≡ₚ batch ++ rest →
  Forall (λ fc, dueTime fc < now) batch →
  Forall (λ fc, now ≤ dueTime fc) rest →
  batch ≡ₚ filter (λ fc, dueTime fc < now) l ∧
  rest ≡ₚ filter (λ fc, now ≤ dueTime fc) l.
Proof.
  intros Hperm Hb Hr. rewrite Hperm, !filter_app. split.
  - rewrite (filter_all _ batch Hb), (filter_none _ rest), app_nil_r; [done|].
    eapply Forall_impl; [exact Hr|]. simpl. lia.
  - rewrite (filter_all _ rest Hr), (filter_none _ batch); [done|].
    eapply Forall_impl; [exact Hb|]. simpl. lia.
Qed.

(** C3, as amended.  A vsync removes from the queue exactly the
    callbacks whose due time is strictly before the clock reading
    [now] that [dispatchVsync] takes (not before the vsync's
    [timestamp]); the callbacks due at [now] or later stay queued.
    The removed callbacks are handled in non-decreasing order of due
    time, and each one that has a handler is called once: the 64-bit
    form with [timestamp], the narrow form with [timestamp] as a
    [long].  In particular, when every queued callback is due before
    [now], all of them are dispatched and the queue is left empty. *)
Theorem dispatchVsync_drains_due now timestamp s :
  ∃ batch s',
    dispatchVsync to_long now timestamp s =
      Done ((), s', batch ≫= handler_calls to_long timestamp) ∧
    batch ≡ₚ filter (λ fc, dueTime fc < now) (queued s) ∧
    queued s' ≡ₚ filter (λ fc, now ≤ dueTime fc) (queued s) ∧
    StronglySorted due_le batch ∧
    (∀ fc, fc ∈ batch →
       (callback64 fc ≠ nullptr →
          handler_calls to_long timestamp fc =
            [CallFrame64 (callback64 fc) timestamp (data fc)]) ∧
       (callback64 fc = nullptr → callback fc ≠ nullptr →
          handler_calls to_long timestamp fc =
            [CallFrame (callback fc) (to_long timestamp) (data fc)])) ∧
    (Forall (λ fc, dueTime fc < now) (queued s) →
       batch ≡ₚ queued s ∧ queued s' = []).
Proof.
  destruct (dispatchVsync_spec now timestamp s)
    as (batch & q' & Hrun & Hperm & Hlt & Hge & Hsorted).
  destruct (split_by_due now _ _ _ Hperm Hlt Hge) as [Hb Hr].
  exists batch, (with_mFrameCallbacks q' s).
  rewrite queued_with_mFrameCallbacks.
  repeat split; try done.
  - intros Hnn. unfold handler_calls. by rewrite bool_decide_eq_true_2.
  - intros Hn Hnn. unfold handler_calls.
    rewrite bool_decide_eq_false_2 by (by intros ?).
    by rewrite bool_decide_eq_true_2.
  - rewrite Hb. by rewrite filter_all.
  - apply Permutation_nil_r. rewrite Hr. rewrite filter_none; [done|].
    eapply Forall_impl; [eassumption|]. simpl. lia.
Qed.

Lemma postFrameCallbackDelayed_spec s caller now cb cb64 data delay :
  INT64_MIN ≤ now + delay ≤ INT64_MAX →
  postFrameCallbackDelayed caller now cb cb64 data delay s =
    Done ((),
          with_mFrameCallbacks
            (pq_push {| callback := cb; callback64 := cb64; data := data;
                        dueTime := now + delay |} (mFrameCallbacks s)) s,
          if decide (delay ≤ 0) then
            if decide (caller = mThreadId s) then [ScheduleVsync]
            else [SendMessage {| what := MSG_SCHEDULE_VSYNC |}]
          else [SendMessageDelayed delay {| what := MSG_SCHEDULE_CALLBACKS |}]).
Proof.
  intros Hrange. unfold postFrameCallbackDelayed, nsecs_add.
  rewrite bool_decide_eq_true_2 by done.
  unfold mbind, M_bind, mret, M_ret, set_mFrameCallbacks, modify, get. cbn [dueTime].
  case_bool_decide as Hdue; destruct (decide (delay ≤ 0)); try lia.
  - cbn [mThreadId with_mFrameCallbacks].
    case_bool_decide; destruct (decide (caller = mThreadId s)); done.
  - done.
Qed.

Lemma postFrameCallbackDelayed_Done s caller now cb cb64 data delay s1 ev :
  postFrameCallbackDelayed caller now cb cb64 data delay s = Done ((), s1, ev) →
  INT64_MIN ≤ now + delay ≤ INT64_MAX.
Proof.
  unfold postFrameCallbackDelayed, nsecs_add.
  case_bool_decide; [done|]. done.
Qed.

Lemma dispatchVsyncs_keep fc vs s :
  fc ∈ queued s →
  Forall (λ v, v.1 ≤ dueTime fc) vs →
  ∃ s2 batches,
    dispatchVsyncs to_long vs s = Done ((), s2, batch_calls to_long vs batches) ∧
    length batches = length vs ∧
    queued s ≡ₚ concat batches ++ queued s2 ∧
    Forall (λ batch, fc ∉ batch) batches ∧
    fc ∈ queued s2.
Proof.
  intros Hin Hvs. revert s Hin.
  induction Hvs as [|[now ts] vs Hnow _ IH]; intros s Hin.
  - exists s, []. by repeat split.
  - destruct (dispatchVsync_spec now ts s)
      as (batch & q' & Hrun & Hperm & Hlt & _ & _).
    assert (fc ∉ batch) as Hnotin.
    { intros Hb. rewrite Forall_forall in Hlt. specialize (Hlt _ Hb).
      simpl in *. lia. }
    assert (fc ∈ queued (with_mFrameCallbacks q' s)) as Hin'.
    { rewrite queued_with_mFrameCallbacks. rewrite Hperm in Hin.
      by apply elem_of_app in Hin as [?|?]. }
    destruct (IH _ Hin') as (s2 & batches & Hrun' & Hlen & Hperm' & Hall & Hin2).
    exists s2, (batch :: batches).
    unfold dispatchVsyncs in *. cbn [for_each]. unfold mbind at 1, M_bind.
    cbn [fst snd]. rewrite Hrun, Hrun'.
    rewrite queued_with_mFrameCallbacks in Hperm'.
    split; [done|]. split; [simpl; lia|].
    split; [|by split; [constructor|]].
    simpl. by rewrite <- app_assoc, <- Hperm'.
Qed.

Lemma posted_queued s fc :
  fc ∈ queued (with_mFrameCallbacks (pq_push fc (mFrameCallbacks s)) s).
Proof.
  rewrite queued_with_mFrameCallbacks, pq_push_items. by left.
Qed.

(** C5.  A callback posted with a delay [d > 0] at the clock reading
    [now] is due at [now + d].  However many vsyncs are dispatched at
    clock readings up to that due time, none of them handles the
    callback (it is in no batch, so no call is made for it), and it
    is still queued after the last one. *)
Theorem delayed_callback_waits s caller now cb cb64 data d s1 ev vs :
  d > 0 →
  postFrameCallbackDelayed caller now cb cb64 data d s = Done ((), s1, ev) →
  Forall (λ v, v.1 ≤ now + d) vs →
  let fc := {| callback := cb; callback64 := cb64; data := data;
               dueTime := now + d |} in
  ∃ s2 batches,
    dispatchVsyncs to_long vs s1 = Done ((), s2, batch_calls to_long vs batches) ∧
    length batches = length vs ∧
    queued s1 ≡ₚ concat batches ++ queued s2 ∧
    Forall (λ batch, fc ∉ batch) batches ∧
    fc ∈ queued s2.
Proof.
  intros _ Hpost Hvs fc.
  pose proof (postFrameCallbackDelayed_Done _ _ _ _ _ _ _ _ _ Hpost) as Hrange.
  rewrite postFrameCallbackDelayed_spec in Hpost by done.
  injection Hpost as <- _.
  apply dispatchVsyncs_keep; [apply posted_queued | done].
Qed.

(** C6.  A post whose due time is representable pushes the callback
    into the queue and then, before it returns: for a delay [≤ 0]
    (due time [≤ now]) calls [scheduleVsync] when the caller is the
    owning thread, and otherwise sends [MSG_SCHEDULE_VSYNC] to the
    looper; for a delay [> 0] sends [MSG_SCHEDULE_CALLBACKS] delayed
    by the delay, and requests no vsync. *)
Theorem postFrameCallbackDelayed_requests s caller now cb cb64 data delay :
  INT64_MIN ≤ now + delay ≤ INT64_MAX →
  let fc := {| callback := cb; callback64 := cb64; data := data;
               dueTime := now + delay |} in
  ∃ s1 ev,
    postFrameCallbackDelayed caller now cb cb64 data delay s = Done ((), s1, ev) ∧
    queued s1 ≡ₚ fc :: queued s ∧
    (delay ≤ 0 →
       dueTime fc ≤ now ∧
       (caller = mThreadId s → ev = [ScheduleVsync]) ∧
       (caller ≠ mThreadId s → ev = [SendMessage {| what := MSG_SCHEDULE_VSYNC |}])) ∧
    (delay > 0 →
       ev = [SendMessageDelayed delay {| what := MSG_SCHEDULE_CALLBACKS |}]).
Proof.
  intros Hrange fc. eexists _, _.
  split; [by apply postFrameCallbackDelayed_spec|].
  split; [by rewrite queued_with_mFrameCallbacks, pq_push_items|].
  split.
  - intros Hd. rewrite decide_True by done. split; [simpl; lia|].
    split; intros Hc; [by rewrite decide_True | by rewrite decide_False].
  - intros Hd. by rewrite decide_False by lia.
Qed.

(** One call for each callback with a handler, none for the others. *)
Lemma handler_calls_length timestamp (batch : list FrameCallback) :
  length (batch ≫= handler_calls to_long timestamp) =
  length (filter has_handler batch).
Proof.
  induction batch as [|fc batch IH]; [done|].
  rewrite bind_cons, length_app, IH. unfold handler_calls.
  destruct (decide (has_handler fc)) as [Hh|Hh].
  - rewrite (filter_cons_True has_handler) by done.
    destruct Hh as [H64|H32].
    + by rewrite bool_decide_eq_true_2.
    + case_bool_decide; [done|]. by rewrite bool_decide_eq_true_2.
  - rewrite (filter_cons_False has_handler) by done.
    unfold has_handler in Hh.
    rewrite !bool_decide_eq_false_2; [done|tauto..].
Qed.

(** The call made for a drained callback is among the calls of the
    vsync. *)
Lemma batch_call_made timestamp (batch : list FrameCallback) fc :
  fc ∈ batch →
  (callback64 fc ≠ nullptr →
     CallFrame64 (callback64 fc) timestamp (data fc) ∈
       batch ≫= handler_calls to_long timestamp) ∧
  (callback64 fc = nullptr → callback fc ≠ nullptr →
     CallFrame (callback fc) (to_long timestamp) (data fc) ∈
       batch ≫= handler_calls to_long timestamp).
Proof.
  intros Hb. split.
  - intros Hnn. apply list_elem_of_bind. exists fc. split; [|done].
    unfold handler_calls. rewrite bool_decide_eq_true_2 by done. by left.
  - intros Hn Hnn. apply list_elem_of_bind. exists fc. split; [|done].
    unfold handler_calls. rewrite bool_decide_eq_false_2 by (by intros ?).
    rewrite bool_decide_eq_true_2 by done. by left.
Qed.

(** Every call of a vsync is the call of a drained callback, in the
    form its handlers select. *)
Lemma batch_call_origin timestamp (batch : list FrameCallback) e :
  e ∈ batch ≫= handler_calls to_long timestamp →
  ∃ fc, fc ∈ batch ∧
    ((callback64 fc ≠ nullptr ∧
      e = CallFrame64 (callback64 fc) timestamp (data fc)) ∨
     (callback64 fc = nullptr ∧ callback fc ≠ nullptr ∧
      e = CallFrame (callback fc) (to_long timestamp) (data fc))).
Proof.
  intros (fc & He & Hb)%list_elem_of_bind. exists fc. split; [done|].
  revert He. unfold handler_calls.
  case_bool_decide as H64; [intros ->%list_elem_of_singleton; by left|].
  case_bool_decide as H32; [|by intros ?%elem_of_nil].
  intros ->%list_elem_of_singleton. right.
  split; [|done]. by destruct (decide (callback64 fc = nullptr)).
Qed.

(** C9.  A vsync ends without error and drains exactly the queued
    callbacks due before its clock reading.  Its calls are those of the
    drained callbacks and no others: a drained callback whose 64-bit
    handler is not null is called through that handler, one whose
    64-bit handler is null and whose narrow handler is not is called
    through the narrow handler, and the number of calls is the number
    of drained callbacks that have a handler, so that none is called
    twice or in both forms and a callback with both handlers null is
    not called.  A callback posted with any handlers, both null
    included, is accepted and queued, and a vsync dispatched after its
    due time drains it and calls it in that way; with both handlers
    null the vsync makes the calls it would have made without it. *)
Theorem drained_callback_handler s now timestamp :
  (∃ batch s',
     dispatchVsync to_long now timestamp s =
       Done ((), s', batch ≫= handler_calls to_long timestamp) ∧
     batch ≡ₚ filter (λ fc, dueTime fc < now) (queued s) ∧
     queued s' ≡ₚ filter (λ fc, now ≤ dueTime fc) (queued s) ∧
     length (batch ≫= handler_calls to_long timestamp) =
       length (filter has_handler (filter (λ fc, dueTime fc < now) (queued s))) ∧
     (∀ fc, fc ∈ queued s → dueTime fc < now →
        (callback64 fc ≠ nullptr →
           CallFrame64 (callback64 fc) timestamp (data fc) ∈
             batch ≫= handler_calls to_long timestamp) ∧
        (callback64 fc = nullptr → callback fc ≠ nullptr →
           CallFrame (callback fc) (to_long timestamp) (data fc) ∈
             batch ≫= handler_calls to_long timestamp)) ∧
     (∀ e, e ∈ batch ≫= handler_calls to_long timestamp →
        ∃ fc, fc ∈ queued s ∧ dueTime fc < now ∧
          ((callback64 fc ≠ nullptr ∧
            e = CallFrame64 (callback64 fc) timestamp (data fc)) ∨
           (callback64 fc = nullptr ∧ callback fc ≠ nullptr ∧
            e = CallFrame (callback fc) (to_long timestamp) (data fc)))) ∧
     ∀ fc, fc ∈ batch →
       invoke to_long timestamp fc s' =
         Done ((), s', handler_calls to_long timestamp fc) ∧
       (callback64 fc ≠ nullptr →
          handler_calls to_long timestamp fc =
            [CallFrame64 (callback64 fc) timestamp (data fc)]) ∧
       (callback64 fc = nullptr → callback fc ≠ nullptr →
          handler_calls to_long timestamp fc =
            [CallFrame (callback fc) (to_long timestamp) (data fc)]) ∧
       (callback64 fc = nullptr → callback fc = nullptr →
          handler_calls to_long timestamp fc = [])) ∧
  (∀ caller now0 cb cb64 data delay,
     INT64_MIN ≤ now0 + delay ≤ INT64_MAX →
     now0 + delay < now →
     let fc := {| callback := cb; callback64 := cb64; data := data;
                  dueTime := now0 + delay |} in
     ∃ s1 ev batch s2,
       postFrameCallbackDelayed caller now0 cb cb64 data delay s =
         Done ((), s1, ev) ∧
       queued s1 ≡ₚ fc :: queued s ∧
       dispatchVsync to_long now timestamp s1 =
         Done ((), s2, batch ≫= handler_calls to_long timestamp) ∧
       batch ≡ₚ filter (λ fc, dueTime fc < now) (queued s1) ∧
       queued s1 ≡ₚ batch ++ queued s2 ∧
       fc ∈ batch ∧ (fc ∉ queued s2) ∧
       (cb64 ≠ nullptr →
          CallFrame64 cb64 timestamp data ∈
            batch ≫= handler_calls to_long timestamp) ∧
       (cb64 = nullptr → cb ≠ nullptr →
          CallFrame cb (to_long timestamp) data ∈
            batch ≫= handler_calls to_long timestamp) ∧
       (cb64 = nullptr → cb = nullptr →
          handler_calls to_long timestamp fc = [] ∧
          length (batch ≫= handler_calls to_long timestamp) =
            length (filter has_handler
                      (filter (λ fc, dueTime fc < now) (queued s))))).
Proof.
  split.
  - destruct (dispatchVsync_spec now timestamp s)
      as (batch & q' & Hrun & Hperm & Hlt & Hge & _).
    destruct (split_by_due now _ _ _ Hperm Hlt Hge) as [Hb Hr].
    exists batch, (with_mFrameCallbacks q' s).
    rewrite queued_with_mFrameCallbacks.
    split; [done|]. split; [done|]. split; [done|].
    split; [by rewrite handler_calls_length, Hb|].
    split.
    { intros fc Hin Hdue. apply batch_call_made.
      rewrite Hb. by apply list_elem_of_filter. }
    split.
    { intros e (fc & Hfc & Hform)%batch_call_origin. exists fc.
      rewrite Hb in Hfc. apply list_elem_of_filter in Hfc as [Hdue Hin].
      by repeat split. }
    intros fc _. split; [apply invoke_calls|]. unfold handler_calls.
    repeat split; intros; repeat case_bool_decide; congruence.
  - intros caller now0 cb cb64 data delay Hrange Hdue fc.
    set (s1 := with_mFrameCallbacks (pq_push fc (mFrameCallbacks s)) s).
    destruct (dispatchVsync_spec now timestamp s1)
      as (batch & q' & Hrun & Hperm & Hlt & Hge & _).
    destruct (split_by_due now _ _ _ Hperm Hlt Hge) as [Hb _].
    assert (queued s1 ≡ₚ fc :: queued s) as Hq
      by (unfold s1; by rewrite queued_with_mFrameCallbacks, pq_push_items).
    assert (fc ∈ queued s1) as Hin by apply posted_queued.
    assert (fc ∉ pq_items q') as Hout.
    { intros Hq'. rewrite Forall_forall in Hge. specialize (Hge _ Hq').
      simpl in Hge. lia. }
    assert (fc ∈ batch) as Hfc.
    { rewrite Hperm in Hin. by apply elem_of_app in Hin as [?|?]. }
    eexists s1, _, batch, (with_mFrameCallbacks q' s1).
    split; [by apply postFrameCallbackDelayed_spec|].
    split; [done|]. split; [done|]. split; [done|]. split; [done|].
    split; [done|]. split; [done|].
    split; [apply (batch_call_made timestamp batch fc Hfc)|].
    split; [apply (batch_call_made timestamp batch fc Hfc)|].
    intros Hn64 Hn32. split.
    + unfold handler_calls. subst fc. simpl.
      by rewrite !bool_decide_eq_false_2 by (by intros ?).
    + rewrite handler_calls_length, Hb, Hq.
      rewrite (filter_cons_True (λ fc, dueTime fc < now)) by (simpl; lia).
      rewrite (filter_cons_False has_handler); [done|].
      unfold has_handler. subst fc. simpl. tauto.
Qed.

(** C7, as amended.  Every registration appends the listener and
    signals the owner to deliver configuration changes, whether the
    listener set was empty before or not: the signal is issued once
    per call, hence again for a further listener. *)
Theorem registerRefreshRateCallback_enables s cb data :
  registerRefreshRateCallback cb data s =
    Done ((),
          with_mRefreshRateCallbacks
            (mRefreshRateCallbacks s ++ [{| rr_callback := cb; rr_data := data |}]) s,
          [ToggleConfigEvents eConfigChangedDispatch]).
Proof. done. Qed.

Lemma unregisterRefreshRateCallback_spec s cb :
  ∃ v,
    length v = length (mRefreshRateCallbacks s) ∧
    unregisterRefreshRateCallback cb s =
      Done ((), with_mRefreshRateCallbacks v s,
            if decide (mRefreshRateCallbacks s = []) then
              [ToggleConfigEvents eConfigChangedSuppress]
            else []).
Proof.
  eexists. split; [apply (remove_if_length (λ callback, bool_decide (cb = rr_callback callback)))|].
  unfold unregisterRefreshRateCallback, mbind, M_bind, set_mRefreshRateCallbacks,
    modify, get. cbn [mRefreshRateCallbacks with_mRefreshRateCallbacks].
  pose proof (remove_if_length (λ callback, bool_decide (cb = rr_callback callback))
                (mRefreshRateCallbacks s)) as Hlen.
  destruct (remove_if _ (mRefreshRateCallbacks s)).1 as [|x v'] eqn:Hv;
    destruct (mRefreshRateCallbacks s) as [|y v0]; try done.
Qed.

Lemma scheduleCallbacks_empty s now :
  queued s = [] → scheduleCallbacks now s = Undefined TopOfEmptyQueue.
Proof.
  intros Hq. apply pq_top_None in Hq.
  unfold scheduleCallbacks, top, mbind, M_bind, get. by rewrite Hq.
Qed.

(** Once the stored period is the new one, the loop calls nobody. *)
Lemma dispatchConfigChanged_loop_idle (v : list RefreshRateCallback) s :
  for_each v (λ cb,
    period ← get mVsyncPeriod;
    if bool_decide (period ≠ mVsyncPeriod s) then
      _ ← call (rr_callback cb)
            (CallRefreshRate (rr_callback cb) (mVsyncPeriod s) (rr_data cb));
      set_mVsyncPeriod (mVsyncPeriod s)
    else mret ()) s = Done ((), s, []).
Proof.
  induction v as [|cb v IH]; [done|].
  cbn [for_each]. rewrite run_bind, run_bind, run_get.
  rewrite bool_decide_eq_false_2 by (by intros ?).
  cbn [mret M_ret]. by rewrite IH.
Qed.

Lemma dispatchConfigChanged_spec s vsyncPeriod :
  dispatchConfigChanged vsyncPeriod s =
    if decide (mVsyncPeriod s = vsyncPeriod) then Done ((), s, [])
    else match mRefreshRateCallbacks s with
         | [] => Done ((), s, [])
         | cb :: _ =>
             if decide (rr_callback cb = nullptr) then Undefined NullCall
             else Done ((), with_mVsyncPeriod vsyncPeriod s,
                        [CallRefreshRate (rr_callback cb) vsyncPeriod (rr_data cb)])
         end.
Proof.
  unfold dispatchConfigChanged. rewrite run_bind, run_get.
  destruct (decide (mVsyncPeriod s = vsyncPeriod)) as [<-|Hne].
  - by rewrite dispatchConfigChanged_loop_idle.
  - destruct (mRefreshRateCallbacks s) as [|cb v] eqn:Hv; [done|].
    cbn [for_each]. rewrite run_bind, run_bind, run_get.
    rewrite bool_decide_eq_true_2 by done.
    rewrite run_bind. unfold call.
    case_bool_decide as Hnull; destruct (decide (rr_callback cb = nullptr)); try done.
    pose proof (dispatchConfigChanged_loop_idle v (with_mVsyncPeriod vsyncPeriod s)) as Hidle.
    cbn [mVsyncPeriod with_mVsyncPeriod] in Hidle.
    unfold call, emit, set_mVsyncPeriod, modify in Hidle |- *. by rewrite Hidle.
Qed.
End ChoreographerFacts.

(** ** The thread-local instance *)
Section RegistryFacts.
Context {Q : Type} `{!PriorityQueue FrameCallback FrameCallback_lt Q}.
Implicit Types (p : Process Q) (c : call_env) (t : N).

Lemma getForThread_cached c p :
  slot p (env_thread c) ≠ nullptr →
  getForThread c p = (slot p (env_thread c), p, []).
Proof. intros Hs. unfold getForThread. by rewrite bool_decide_eq_false_2. Qed.

Lemma getForThread_no_looper c p :
  slot p (env_thread c) = nullptr → env_looper c = nullptr →
  getForThread c p = (nullptr, p, [LogW "No looper prepared for thread"]).
Proof.
  intros Hs Hl. unfold getForThread. by rewrite !bool_decide_eq_true_2.
Qed.

Lemma slot_insert p t a (h : gmap N (Choreographer Q)) (i : gset N) :
  slot {| gChoreographer := <[t := a]> (gChoreographer p);
          heap := h; initialized := i |} t = a.
Proof. unfold slot. simpl. by rewrite lookup_insert_eq. Qed.

Lemma slot_insert_ne p t t' a (h : gmap N (Choreographer Q)) (i : gset N) :
  t ≠ t' →
  slot {| gChoreographer := <[t := a]> (gChoreographer p);
          heap := h; initialized := i |} t' = slot p t'.
Proof. intros Hne. unfold slot. simpl. by rewrite lookup_insert_ne. Qed.

(** What a call does to the thread-local pointers and to the heap:
    it finds the thread's pointer set, or finds no looper, or makes
    an object. *)
Lemma getForThread_cases c p r p1 ev :
  getForThread c p = (r, p1, ev) →
  (p1 = p ∧ r = slot p (env_thread c) ∧ r ≠ nullptr) ∨
  (p1 = p ∧ r = nullptr ∧ slot p (env_thread c) = nullptr ∧
   env_looper c = nullptr) ∨
  (slot p (env_thread c) = nullptr ∧ env_looper c ≠ nullptr ∧
   slot p1 (env_thread c) = env_new c ∧
   (∀ t, t ≠ env_thread c → slot p1 t = slot p t) ∧
   (∀ a, a ≠ env_new c → heap p1 !! a = heap p !! a) ∧
   is_Some (heap p1 !! env_new c) ∧
   ((r = nullptr ∧ env_initialize c ≠ OK ∧ initialized p1 = initialized p) ∨
    (r = env_new c ∧ env_initialize c = OK ∧
     initialized p1 = {[env_new c]} ∪ initialized p))).
Proof.
  unfold getForThread.
  case_bool_decide as Hs; [|by intros [= <- <- <-]; left].
  case_bool_decide as Hl; [by intros [= <- <- <-]; right; left|].
  assert (slot {| gChoreographer := <[env_thread c := env_new c]> (gChoreographer p);
                  heap := <[env_new c := Choreographer_new (env_looper c)
                                            (env_thread c) (env_displayId c)]> (heap p);
                  initialized := initialized p |} (env_thread c) = env_new c) as Hnew
    by apply slot_insert.
  case_bool_decide as Hi; intros [= <- <- <-]; right; right; simpl;
    rewrite ?Hnew;
    (split; [done|]); (split; [done|]); (split; [done|]);
    (split; [by intros; apply slot_insert_ne|]);
    (split; [by intros; apply lookup_insert_ne|]);
    (split; [by rewrite lookup_insert_eq|]).
  - by left.
  - right. split; [done|]. split; [|done].
    destruct (decide (env_initialize c = OK)); [done|]. by destruct Hi.
Qed.

Lemma getForThread_wf c p r p1 ev :
  Process_wf p → new_ok p c →
  getForThread c p = (r, p1, ev) → Process_wf p1.
Proof.
  intros (Hheap & Hdistinct & Hinit) [Hnn Hfresh] Hrun.
  destruct (getForThread_cases _ _ _ _ _ Hrun)
    as [[-> _]|[[-> _]|(Hs & _ & Hnew & Hslots & Hheap1 & Hobj & Hi)]]; [done..|].
  assert (∀ t, slot p t ≠ nullptr → slot p t ≠ env_new c) as Hold.
  { intros t Ht Heq. destruct (Hheap t Ht) as [o Ho]. congruence. }
  split; [|split].
  - intros t Ht. destruct (decide (t = env_thread c)) as [->|Hne].
    + by rewrite Hnew.
    + rewrite Hslots in Ht |- * by done.
      rewrite Hheap1 by auto. auto.
  - intros t1 t2 Hne Ht1.
    destruct (decide (t1 = env_thread c)) as [->|Hne1].
    + rewrite Hnew, Hslots by done. intros Heq.
      apply (Hold t2); congruence.
    + rewrite Hslots in Ht1 |- * by done.
      destruct (decide (t2 = env_thread c)) as [->|Hne2].
      * rewrite Hnew. auto.
      * rewrite Hslots by done. auto.
  - intros a Ha. destruct (decide (a = env_new c)) as [->|Hne]; [done|].
    rewrite Hheap1 by done. apply Hinit.
    destruct Hi as [(_ & _ & <-)|(_ & _ & Hi)]; [done|].
    rewrite Hi in Ha. by apply elem_of_union in Ha as [Ha%elem_of_singleton|Ha].
Qed.

Lemma getForThread_slot_kept c p r p1 ev t :
  getForThread c p = (r, p1, ev) →
  slot p t ≠ nullptr → slot p1 t = slot p t.
Proof.
  intros Hrun Ht.
  destruct (getForThread_cases _ _ _ _ _ Hrun)
    as [[-> _]|[[-> _]|(Hs & _ & _ & Hslots & _)]]; [done..|].
  apply Hslots. congruence.
Qed.

Lemma getForThread_uninitialized_kept c p r p1 ev a :
  new_ok p c →
  getForThread c p = (r, p1, ev) →
  is_Some (heap p !! a) → a ∉ initialized p →
  is_Some (heap p1 !! a) ∧ a ∉ initialized p1.
Proof.
  intros [_ Hfresh] Hrun Ha Hni.
  destruct (getForThread_cases _ _ _ _ _ Hrun)
    as [[-> _]|[[-> _]|(_ & _ & _ & _ & Hheap1 & _ & Hi)]]; [done..|].
  assert (a ≠ env_new c) as Hne.
  { intros ->. destruct Ha as [o Ho]. congruence. }
  split; [by rewrite Hheap1|].
  destruct Hi as [(_ & _ & ->)|(_ & _ & ->)]; [done|].
  by rewrite not_elem_of_union, not_elem_of_singleton.
Qed.

(** The same along a sequence of calls. *)
Lemma getForThread_calls_kept cs p rs p2 :
  Process_wf p → calls_ok cs p →
  getForThread_calls cs p = (rs, p2) →
  Process_wf p2 ∧
  (∀ t, slot p t ≠ nullptr → slot p2 t = slot p t) ∧
  (∀ a, is_Some (heap p !! a) → a ∉ initialized p →
        is_Some (heap p2 !! a) ∧ a ∉ initialized p2).
Proof.
  revert p rs p2. induction cs as [|c cs IH]; intros p rs p2 Hwf Hok; simpl.
  - by intros [= <- <-].
  - destruct (getForThread c p) as [[r p1] ev] eqn:Hrun.
    destruct (getForThread_calls cs p1) as [rs' p2'] eqn:Hruns.
    intros [= <- <-]. simpl in Hok. rewrite Hrun in Hok. destruct Hok as [Hnew Hok].
    destruct (IH _ _ _ (getForThread_wf _ _ _ _ _ Hwf Hnew Hrun) Hok Hruns)
      as (Hwf2 & Hslots & Huninit).
    split; [done|]. split.
    + intros t Ht. rewrite Hslots; rewrite (getForThread_slot_kept _ _ _ _ _ _ Hrun Ht); done.
    + intros a Ha Hni.
      apply Huninit; by eapply getForThread_uninitialized_kept.
Qed.

Lemma calls_ok_app cs cs' p :
  calls_ok (cs ++ cs') p ↔
  calls_ok cs p ∧ calls_ok cs' (getForThread_calls cs p).2.
Proof.
  revert p. induction cs as [|c cs IH]; intros p; simpl; [tauto|].
  rewrite IH. destruct (getForThread c p) as [[r p1] ev]; simpl.
  destruct (getForThread_calls cs p1) as [rs p2]; simpl. tauto.
Qed.

(** C8, as amended.  On a thread whose pointer is null,
    [getForThread] returns null when the thread has prepared no
    looper and also when [initialize()] fails, and returns the new,
    non-null object when the looper exists and [initialize()]
    succeeds.  Once a call has returned a non-null object, every
    later call from the same thread returns that object, and no call
    from another thread returns it. *)
Theorem getForThread_instance p c cs c' r p1 ev rs p2 r' p3 ev' :
  Process_wf p →
  calls_ok (c :: cs ++ [c']) p →
  getForThread c p = (r, p1, ev) →
  getForThread_calls cs p1 = (rs, p2) →
  getForThread c' p2 = (r', p3, ev') →
  (slot p (env_thread c) = nullptr →
     (env_looper c = nullptr → r = nullptr) ∧
     (env_looper c ≠ nullptr → env_initialize c ≠ OK → r = nullptr) ∧
     (env_looper c ≠ nullptr → env_initialize c = OK →
        r = env_new c ∧ r ≠ nullptr)) ∧
  (r ≠ nullptr → env_thread c' = env_thread c → r' = r) ∧
  (r ≠ nullptr → env_thread c' ≠ env_thread c → r' ≠ r).
Proof.
  intros Hwf Hok Hrun Hruns Hrun'.
  simpl in Hok. rewrite Hrun in Hok. simpl in Hok.
  destruct Hok as [Hnew Hok]. apply calls_ok_app in Hok as [Hok Hok'].
  rewrite Hruns in Hok'. simpl in Hok'. destruct Hok' as [Hnew' _].
  pose proof (getForThread_wf _ _ _ _ _ Hwf Hnew Hrun) as Hwf1.
  destruct (getForThread_calls_kept _ _ _ _ Hwf1 Hok Hruns) as (Hwf2 & Hkept & _).
  split.
  { intros Hs. destruct Hnew as [Hnn _].
    destruct (getForThread_cases _ _ _ _ _ Hrun)
      as [(_ & -> & Hr)|[(_ & -> & _ & Hl)
         |(_ & Hl & _ & _ & _ & _ & [(-> & Hi & _)|(-> & Hi & _)])]];
      repeat split; intros; congruence. }
  assert (r ≠ nullptr → slot p2 (env_thread c) = r) as Hheld.
  { intros Hr.
    assert (slot p1 (env_thread c) = r) as Hs1.
    { destruct (getForThread_cases _ _ _ _ _ Hrun)
        as [(-> & -> & _)|[(_ & -> & _)
           |(_ & _ & Hs1 & _ & _ & _ & [(-> & _)|(-> & _)])]]; done. }
    rewrite Hkept; congruence. }
  split.
  - intros Hr Ht. specialize (Hheld Hr).
    rewrite getForThread_cached in Hrun' by (rewrite Ht; congruence).
    injection Hrun' as <- _ _. by rewrite Ht.
  - intros Hr Ht. specialize (Hheld Hr).
    destruct Hwf2 as (Hheap2 & Hdistinct2 & _).
    destruct (getForThread_cases _ _ _ _ _ Hrun')
      as [(_ & -> & _)|[(_ & -> & _)
         |(_ & _ & _ & _ & _ & _ & [(-> & _)|(-> & _)])]];
      try congruence.
    + intros Heq. apply (Hdistinct2 (env_thread c) (env_thread c')); congruence.
    + intros Heq. destruct Hnew' as [_ Hfresh].
      destruct (Hheap2 (env_thread c)) as [o Ho]; congruence.
Qed.

(** C10.  [getForThread] assigns the new object to the thread-local
    pointer before it looks at the status of [initialize()].  When
    [initialize()] fails the call returns null, yet the pointer stays
    set; every later call from that thread returns that object, which
    was never initialised, creates nothing and logs nothing. *)
Theorem getForThread_failed_initialize p c cs c' r p1 ev rs p2 :
  Process_wf p →
  calls_ok (c :: cs) p →
  slot p (env_thread c) = nullptr →
  env_looper c ≠ nullptr →
  env_initialize c ≠ OK →
  env_thread c' = env_thread c →
  getForThread c p = (r, p1, ev) →
  getForThread_calls cs p1 = (rs, p2) →
  r = nullptr ∧
  slot p1 (env_thread c) = env_new c ∧ env_new c ≠ nullptr ∧
  getForThread c' p2 = (env_new c, p2, []) ∧
  is_Some (heap p2 !! env_new c) ∧ env_new c ∉ initialized p2.
Proof.
  intros Hwf Hok Hs Hl Hi Ht Hrun Hruns.
  simpl in Hok. rewrite Hrun in Hok. simpl in Hok. destruct Hok as [Hnew Hok].
  pose proof (getForThread_wf _ _ _ _ _ Hwf Hnew Hrun) as Hwf1.
  destruct (getForThread_calls_kept _ _ _ _ Hwf1 Hok Hruns) as (_ & Hkept & Huninit).
  destruct Hnew as [Hnn Hfresh].
  destruct (getForThread_cases _ _ _ _ _ Hrun)
    as [(_ & -> & Hr)|[(_ & _ & _ & ?)
       |(_ & _ & Hs1 & _ & _ & Hobj & [(-> & _ & Hinit)|(_ & ? & _)])]];
    [congruence|done| |done].
  split; [done|]. split; [done|]. split; [done|].
  assert (slot p2 (env_thread c') = env_new c) as Hs2.
  { rewrite Ht, Hkept; congruence. }
  split.
  - rewrite getForThread_cached by congruence. by rewrite Hs2.
  - apply Huninit; [done|]. rewrite Hinit. intros Hin.
    destruct Hwf as (_ & _ & Hinit0). destruct (Hinit0 _ Hin). congruence.
Qed.
End RegistryFacts.

(** * The properties at concrete inputs

    The scheduler over the list queue, on a 64-bit ABI. *)

(** C1, on the code.  Two listeners are registered and the vsync period
    changes from 0 to 16666667: the loop stores the new period as soon
    as it has called the first listener, so the test inside the loop
    fails for the second one, which is not called. *)
Example dispatchConfigChanged_calls_first_listener_only :
  (registerRefreshRateCallback 1 11 ;;
   registerRefreshRateCallback 2 22 ;;
   dispatchConfigChanged 16666667) fresh =
  Done ((),
        with_mVsyncPeriod 16666667
          (with_mRefreshRateCallbacks
             [{| rr_callback := 1; rr_data := 11 |};
              {| rr_callback := 2; rr_data := 22 |}] fresh),
        [ToggleConfigEvents eConfigChangedDispatch;
         ToggleConfigEvents eConfigChangedDispatch;
         CallRefreshRate 1 16666667 11]).
Proof. reflexivity. Qed.

(** C2, on the code.  The only listener is unregistered:
    [std::remove_if] moves elements but cannot shrink the vector, and
    nothing erases its tail, so the listener stays in the set, no
    signal to suppress configuration changes is sent, and the next
    change of period still calls the listener. *)
Example unregisterRefreshRateCallback_keeps_listener :
  (registerRefreshRateCallback 1 11 ;;
   unregisterRefreshRateCallback 1 ;;
   dispatchConfigChanged 16666667) fresh =
  Done ((),
        with_mVsyncPeriod 16666667
          (with_mRefreshRateCallbacks
             [{| rr_callback := 1; rr_data := 11 |}] fresh),
        [ToggleConfigEvents eConfigChangedDispatch;
         CallRefreshRate 1 16666667 11]).
Proof. reflexivity. Qed.

(** C4, on the code.  Two callbacks are posted, one of them delayed; a
    vsync dispatched just after the later due time drains both; the
    delayed message [MSG_SCHEDULE_CALLBACKS] then reaches
    [scheduleCallbacks], which takes [top()] of the empty queue without
    a test. *)
Example scheduleCallbacks_reads_empty_queue :
  (postFrameCallbackDelayed 1 0 7 0 70 0 ;;
   postFrameCallbackDelayed 1 0 8 0 80 1000000 ;;
   dispatchVsync long64 1000020 999000) fresh =
  Done ((), fresh,
        [ScheduleVsync;
         SendMessageDelayed 1000000 {| what := MSG_SCHEDULE_CALLBACKS |};
         CallFrame 7 999000 70;
         CallFrame 8 999000 80]) ∧
  queued fresh = [] ∧
  handleMessage 1000050 {| what := MSG_SCHEDULE_CALLBACKS |} fresh =
    Undefined TopOfEmptyQueue.
Proof. repeat split. Qed.

(** C3, as stated, fails: a callback due at 12000000, not before the
    vsync's timestamp 10000000, is removed and called when the vsync is
    dispatched at the clock reading 15000000. *)
Lemma dispatchVsync_drains_after_timestamp :
  let fc := {| callback := 0; callback64 := 7; data := 70;
               dueTime := 12000000 |} in
  let s := with_mFrameCallbacks [fc] fresh in
  postFrameCallbackDelayed 1 2000000 0 7 70 10000000 fresh =
    Done ((), s, [SendMessageDelayed 10000000 {| what := MSG_SCHEDULE_CALLBACKS |}]) ∧
  queued s = [fc] ∧
  ¬ (dueTime fc < 10000000) ∧
  dispatchVsync long64 15000000 10000000 s =
    Done ((), fresh, [CallFrame64 7 10000000 70]) ∧
  queued fresh = [].
Proof.
  split; [reflexivity|]. split; [reflexivity|]. split; [simpl; lia|].
  split; reflexivity.
Qed.

(** C7, as stated, fails: with one listener registered already, the
    registration of a second one signals the owner again. *)
Lemma second_registration_enables_again :
  let s := with_mRefreshRateCallbacks
             [{| rr_callback := 1; rr_data := 11 |}] fresh in
  registerRefreshRateCallback 1 11 fresh =
    Done ((), s, [ToggleConfigEvents eConfigChangedDispatch]) ∧
  mRefreshRateCallbacks s ≠ [] ∧
  registerRefreshRateCallback 2 22 s =
    Done ((),
          with_mRefreshRateCallbacks
            [{| rr_callback := 1; rr_data := 11 |};
             {| rr_callback := 2; rr_data := 22 |}] fresh,
          [ToggleConfigEvents eConfigChangedDispatch]).
Proof. split; [reflexivity|]. split; [done|reflexivity]. Qed.

(** C8, as stated, fails: the thread has a looper, [initialize()]
    returns [NO_INIT], and the call returns null. *)
Lemma getForThread_null_with_looper :
  let c := {| env_thread := 1; env_looper := 100; env_new := 4096;
              env_displayId := None; env_initialize := -19 |} in
  env_looper c ≠ nullptr ∧
  (getForThread (Q := list FrameCallback) c Process_start).1.1 = nullptr.
Proof. split; [done|reflexivity]. Qed.

(** C5 at a post with a delay of 5 ms followed by two vsyncs. *)
Lemma delayed_callback_waits_witness :
  let fc := {| callback := 7; callback64 := 0; data := 70;
               dueTime := 1000 + 5000000 |} in
  let s1 := with_mFrameCallbacks [fc] fresh in
  let ev := [SendMessageDelayed 5000000 {| what := MSG_SCHEDULE_CALLBACKS |}] in
  let vs := [(2000000, 1900000); (5001000, 5000500)] in
  5000000 > 0 ∧
  postFrameCallbackDelayed 1 1000 7 0 70 5000000 fresh = Done ((), s1, ev) ∧
  Forall (λ v, v.1 ≤ 1000 + 5000000) vs ∧
  ∃ s2 batches,
    dispatchVsyncs long64 vs s1 = Done ((), s2, batch_calls long64 vs batches) ∧
    length batches = length vs ∧
    queued s1 ≡ₚ concat batches ++ queued s2 ∧
    Forall (λ batch, fc ∉ batch) batches ∧
    fc ∈ queued s2.
Proof.
  intros fc s1 ev vs.
  assert (5000000 > 0) as Hd by lia.
  assert (postFrameCallbackDelayed 1 1000 7 0 70 5000000 fresh = Done ((), s1, ev))
    as Hpost by reflexivity.
  assert (Forall (λ v : Z * Z, v.1 ≤ 1000 + 5000000) vs) as Hvs
    by (repeat constructor; simpl; lia).
  split; [done|]. split; [done|]. split; [done|].
  exact (delayed_callback_waits long64 fresh 1 1000 7 0 70 5000000 s1 ev vs
           Hd Hpost Hvs).
Defined.

(** C6 at a post without delay from a thread that is not the owner. *)
Lemma postFrameCallbackDelayed_requests_witness :
  let fc := {| callback := 7; callback64 := 0; data := 70; dueTime := 1000 + 0 |} in
  INT64_MIN ≤ 1000 + 0 ≤ INT64_MAX ∧
  ∃ s1 ev,
    postFrameCallbackDelayed 2 1000 7 0 70 0 fresh = Done ((), s1, ev) ∧
    queued s1 ≡ₚ fc :: queued fresh ∧
    (0 ≤ 0 →
       dueTime fc ≤ 1000 ∧
       (2%N = mThreadId fresh → ev = [ScheduleVsync]) ∧
       (2%N ≠ mThreadId fresh →
          ev = [SendMessage {| what := MSG_SCHEDULE_VSYNC |}])) ∧
    (0 > 0 →
       ev = [SendMessageDelayed 0 {| what := MSG_SCHEDULE_CALLBACKS |}]).
Proof.
  intros fc.
  assert (INT64_MIN ≤ 1000 + 0 ≤ INT64_MAX) as Hrange
    by (unfold INT64_MIN, INT64_MAX; lia).
  split; [done|].
  exact (postFrameCallbackDelayed_requests fresh 2 1000 7 0 70 0 Hrange).
Defined.

(** The three kinds of callback in one vsync: the one with both
    handlers null is drained without a call, the others are called in
    the order of their due times, each through its own form. *)
Example dispatchVsync_handler_forms :
  dispatchVsync long64 2000 1500
    (with_mFrameCallbacks
       [{| callback := nullptr; callback64 := nullptr; data := 50; dueTime := 0 |};
        {| callback := 6; callback64 := nullptr; data := 60; dueTime := 500 |};
        {| callback := nullptr; callback64 := 7; data := 70; dueTime := 1000 |}]
       fresh) =
  Done ((), fresh, [CallFrame 6 1500 60; CallFrame64 7 1500 70]).
Proof. reflexivity. Qed.

(** C9 at a post through the 64-bit handler into a queue that holds a
    callback with both handlers null and one with the narrow handler;
    the vsync drains the three of them. *)
Lemma drained_callback_handler_witness :
  let s := with_mFrameCallbacks
             [{| callback := nullptr; callback64 := nullptr; data := 50;
                 dueTime := 0 |};
              {| callback := 6; callback64 := nullptr; data := 60;
                 dueTime := 500 |}] fresh in
  let fc := {| callback := nullptr; callback64 := 7; data := 70;
               dueTime := 1000 + 0 |} in
  INT64_MIN ≤ 1000 + 0 ≤ INT64_MAX ∧
  1000 + 0 < 2000 ∧
  ∃ s1 ev batch s2,
    postFrameCallbackDelayed 1 1000 nullptr 7 70 0 s = Done ((), s1, ev) ∧
    queued s1 ≡ₚ fc :: queued s ∧
    dispatchVsync long64 2000 1500 s1 =
      Done ((), s2, batch ≫= handler_calls long64 1500) ∧
    batch ≡ₚ filter (λ fc, dueTime fc < 2000) (queued s1) ∧
    queued s1 ≡ₚ batch ++ queued s2 ∧
    fc ∈ batch ∧ (fc ∉ queued s2) ∧
    (7%N ≠ nullptr →
       CallFrame64 7 1500 70 ∈ batch ≫= handler_calls long64 1500) ∧
    (7%N = nullptr → nullptr ≠ nullptr →
       CallFrame nullptr (long64 1500) 70 ∈ batch ≫= handler_calls long64 1500) ∧
    (7%N = nullptr → nullptr = nullptr →
       handler_calls long64 1500 fc = [] ∧
       length (batch ≫= handler_calls long64 1500) =
         length (filter has_handler
                   (filter (λ fc, dueTime fc < 2000) (queued s)))).
Proof.
  intros s fc.
  assert (INT64_MIN ≤ 1000 + 0 ≤ INT64_MAX) as Hrange
    by (unfold INT64_MIN, INT64_MAX; lia).
  assert (1000 + 0 < 2000) as Hdue by lia.
  split; [done|]. split; [done|].
  exact (proj2 (drained_callback_handler long64 s 2000 1500)
           1%N 1000 nullptr 7%N 70%N 0 Hrange Hdue).
Defined.

(** The process starts well formed. *)
Lemma Process_start_wf {Q} `{!PriorityQueue FrameCallback FrameCallback_lt Q} :
  Process_wf (Q := Q) Process_start.
Proof.
  unfold Process_wf, slot. simpl. split; [|split].
  - intros t. by rewrite lookup_empty.
  - intros t1 t2 _. by rewrite lookup_empty.
  - intros a Ha. by apply not_elem_of_empty in Ha.
Qed.

(** C8, as amended, at three calls from two threads. *)
Lemma getForThread_instance_witness :
  let c := {| env_thread := 1; env_looper := 100; env_new := 4096;
              env_displayId := None; env_initialize := OK |} in
  let c2 := {| env_thread := 2; env_looper := 200; env_new := 8192;
               env_displayId := None; env_initialize := OK |} in
  let c' := {| env_thread := 1; env_looper := 100; env_new := 12288;
               env_displayId := None; env_initialize := OK |} in
  let p : Process (list FrameCallback) := Process_start in
  let p1 := (getForThread c p).1.2 in
  let p2 := (getForThread c2 p1).1.2 in
  Process_wf p ∧
  calls_ok (c :: [c2] ++ [c']) p ∧
  getForThread c p = (4096%N, p1, []) ∧
  getForThread_calls [c2] p1 = ([8192%N], p2) ∧
  getForThread c' p2 = (4096%N, p2, []) ∧
  (slot p (env_thread c) = nullptr →
     (env_looper c = nullptr → 4096%N = nullptr) ∧
     (env_looper c ≠ nullptr → env_initialize c ≠ OK → 4096%N = nullptr) ∧
     (env_looper c ≠ nullptr → env_initialize c = OK →
        4096%N = env_new c ∧ 4096%N ≠ nullptr)) ∧
  (4096%N ≠ nullptr → env_thread c' = env_thread c → 4096%N = 4096%N) ∧
  (4096%N ≠ nullptr → env_thread c' ≠ env_thread c → 4096%N ≠ 4096%N).
Proof.
  intros c c2 c' p p1 p2.
  assert (Process_wf p) as Hwf by apply Process_start_wf.
  assert (calls_ok (c :: [c2] ++ [c']) p) as Hok
    by (repeat split; try done; vm_compute; reflexivity).
  assert (getForThread c p = (4096%N, p1, [])) as Hrun by (vm_compute; reflexivity).
  assert (getForThread_calls [c2] p1 = ([8192%N], p2)) as Hruns
    by (vm_compute; reflexivity).
  assert (getForThread c' p2 = (4096%N, p2, [])) as Hrun' by (vm_compute; reflexivity).
  split; [done|]. split; [done|]. split; [done|]. split; [done|]. split; [done|].
  exact (getForThread_instance p c [c2] c' _ _ _ _ _ _ _ _ Hwf Hok Hrun Hruns Hrun').
Defined.

(** C10 at a failed [initialize()] on thread 1. *)
Lemma getForThread_failed_initialize_witness :
  let c := {| env_thread := 1; env_looper := 100; env_new := 4096;
              env_displayId := None; env_initialize := -19 |} in
  let c2 := {| env_thread := 2; env_looper := 200; env_new := 8192;
               env_displayId := None; env_initialize := OK |} in
  let c' := {| env_thread := 1; env_looper := 100; env_new := 12288;
               env_displayId := None; env_initialize := OK |} in
  let p : Process (list FrameCallback) := Process_start in
  let p1 := (getForThread c p).1.2 in
  let p2 := (getForThread c2 p1).1.2 in
  Process_wf p ∧
  calls_ok (c :: [c2]) p ∧
  slot p (env_thread c) = nullptr ∧
  env_looper c ≠ nullptr ∧
  env_initialize c ≠ OK ∧
  env_thread c' = env_thread c ∧
  getForThread c p = (nullptr, p1, [LogW "Failed to initialize"]) ∧
  getForThread_calls [c2] p1 = ([8192%N], p2) ∧
  nullptr = nullptr ∧
  slot p1 (env_thread c) = env_new c ∧ env_new c ≠ nullptr ∧
  getForThread c' p2 = (env_new c, p2, []) ∧
  is_Some (heap p2 !! env_new c) ∧ env_new c ∉ initialized p2.
Proof.
  intros c c2 c' p p1 p2.
  assert (Process_wf p) as Hwf by apply Process_start_wf.
  assert (calls_ok (c :: [c2]) p) as Hok
    by (repeat split; try done; vm_compute; reflexivity).
  assert (slot p (env_thread c) = nullptr) as Hs by reflexivity.
  assert (env_looper c ≠ nullptr) as Hl by done.
  assert (env_initialize c ≠ OK) as Hi by done.
  assert (env_thread c' = env_thread c) as Ht by reflexivity.
  assert (getForThread c p = (nullptr, p1, [LogW "Failed to initialize"])) as Hrun
    by (vm_compute; reflexivity).
  assert (getForThread_calls [c2] p1 = ([8192%N], p2)) as Hruns
    by (vm_compute; reflexivity).
  do 8 (split; [done|]).
  exact (getForThread_failed_initialize p c [c2] c' _ _ _ _ _
           Hwf Hok Hs Hl Hi Ht Hrun Hruns).
Defined.

(** * Further properties of the scheduler *)
Section SchedulerFacts.
Context {Q : Type} `{!PriorityQueue FrameCallback FrameCallback_lt Q}.
Variable to_long : Z → Z.
Implicit Types (s : Choreographer Q) (fc : FrameCallback) (now : Z).

(** X1.  [scheduleCallbacks] has no defined result on an empty queue;
    on a queue that is not empty it leaves the object as it was and
    requests a vsync exactly when some queued callback is due at or
    before the clock reading. *)
Theorem scheduleCallbacks_requests_when_due s now :
  scheduleCallbacks now s =
    if decide (queued s = []) then Undefined TopOfEmptyQueue
    else Done ((), s,
               if decide (Exists (λ fc, dueTime fc ≤ now) (queued s))
               then [ScheduleVsync] else []).
Proof.
  unfold scheduleCallbacks. rewrite run_bind. unfold top. rewrite run_bind, run_get.
  destruct (pq_top (mFrameCallbacks s)) as [t|] eqn:Ht.
  - destruct (top_queued _ _ Ht) as [Hin Hmin].
    rewrite decide_False by (intros Hq; rewrite Hq in Hin; by apply elem_of_nil in Hin).
    cbn [mret M_ret]. case_bool_decide as Hdue.
    + rewrite decide_True; [done|]. apply Exists_exists. eauto.
    + rewrite decide_False; [done|]. rewrite Exists_exists. intros (y & Hy & Hle).
      rewrite Forall_forall in Hmin. specialize (Hmin y Hy). unfold due_le in Hmin. lia.
  - apply pq_top_None in Ht. by rewrite decide_True.
Qed.

Lemma drain_nothing_due n now s acc :
  Forall (λ fc, now ≤ dueTime fc) (queued s) →
  drain n now acc s = Done (acc, s, []).
Proof.
  intros Hall. destruct n as [|n]; [done|].
  cbn [drain]. rewrite run_bind, run_get, pq_empty_items.
  case_bool_decide as Hempty; [done|].
  unfold top. rewrite !run_bind, run_get.
  destruct (pq_top (mFrameCallbacks s)) as [t|] eqn:Ht;
    [|by apply pq_top_None in Ht].
  destruct (top_queued _ _ Ht) as [Hin _].
  rewrite Forall_forall in Hall. specialize (Hall t Hin). simpl in Hall.
  cbn [mret M_ret]. by rewrite bool_decide_eq_false_2 by lia.
Qed.

(** X3.  A vsync dispatched when no queued callback is due before the
    clock reading, an empty queue included, calls nothing and leaves
    the object exactly as it was. *)
Theorem dispatchVsync_nothing_due s now timestamp :
  Forall (λ fc, now ≤ dueTime fc) (queued s) →
  dispatchVsync to_long now timestamp s = Done ((), s, []).
Proof.
  intros Hall. unfold dispatchVsync. rewrite run_bind, run_get, run_bind.
  by rewrite drain_nothing_due.
Qed.

(** X2.  After a post, the message [MSG_SCHEDULE_CALLBACKS] handled
    at a clock reading at or after the due time of the posted callback
    requests a vsync and changes nothing. *)
Theorem recheck_after_delay_requests_vsync
    s caller now cb cb64 data delay s1 ev now' :
  postFrameCallbackDelayed caller now cb cb64 data delay s = Done ((), s1, ev) →
  now + delay ≤ now' →
  handleMessage now' {| what := MSG_SCHEDULE_CALLBACKS |} s1 =
    Done ((), s1, [ScheduleVsync]).
Proof.
  intros Hpost Hdue.
  pose proof (postFrameCallbackDelayed_Done _ _ _ _ _ _ _ _ _ Hpost) as Hrange.
  rewrite postFrameCallbackDelayed_spec in Hpost by done.
  injection Hpost as <- _.
  set (fc := {| callback := cb; callback64 := cb64; data := data;
                dueTime := now + delay |}).
  pose proof (posted_queued s fc) as Hin.
  unfold handleMessage. rewrite bool_decide_eq_true_2 by done.
  unfold scheduleCallbacks. rewrite run_bind. unfold top. rewrite run_bind, run_get.
  destruct (pq_top _) as [t|] eqn:Ht.
  - destruct (top_queued _ _ Ht) as [_ Hmin].
    rewrite Forall_forall in Hmin. specialize (Hmin fc Hin).
    unfold due_le in Hmin. simpl in Hmin.
    cbn [mret M_ret]. by rewrite bool_decide_eq_true_2 by lia.
  - apply pq_top_None in Ht. unfold queued in Hin. rewrite Ht in Hin.
    by apply elem_of_nil in Hin.
Qed.

Lemma posted_in_batch s caller now cb cb64 data delay s1 ev now' timestamp :
  postFrameCallbackDelayed caller now cb cb64 data delay s = Done ((), s1, ev) →
  now + delay < now' →
  ∃ s2 batch,
    dispatchVsync to_long now' timestamp s1 =
      Done ((), s2, batch ≫= handler_calls to_long timestamp) ∧
    {| callback := cb; callback64 := cb64; data := data;
       dueTime := now + delay |} ∈ batch.
Proof.
  intros Hpost Hdue.
  pose proof (postFrameCallbackDelayed_Done _ _ _ _ _ _ _ _ _ Hpost) as Hrange.
  rewrite postFrameCallbackDelayed_spec in Hpost by done.
  injection Hpost as <- _.
  set (fc := {| callback := cb; callback64 := cb64; data := data;
                dueTime := now + delay |}).
  set (s1 := with_mFrameCallbacks _ s).
  assert (fc ∈ queued s1) as Hin by apply posted_queued.
  destruct (dispatchVsync_spec to_long now' timestamp s1)
    as (batch & q' & Hrun & Hperm & _ & Hge & _).
  eexists _, batch. split; [exact Hrun|].
  rewrite Hperm in Hin. apply elem_of_app in Hin as [?|Hq]; [done|].
  rewrite Forall_forall in Hge. specialize (Hge _ Hq). simpl in Hge. lia.
Qed.

Lemma handler_calls_64 timestamp fc :
  callback64 fc ≠ nullptr →
  handler_calls to_long timestamp fc =
    [CallFrame64 (callback64 fc) timestamp (data fc)].
Proof. intros Hnn. unfold handler_calls. by rewrite bool_decide_eq_true_2. Qed.

Lemma handler_calls_narrow timestamp fc :
  callback64 fc = nullptr → callback fc ≠ nullptr →
  handler_calls to_long timestamp fc =
    [CallFrame (callback fc) (to_long timestamp) (data fc)].
Proof.
  intros Hn Hnn. unfold handler_calls.
  rewrite bool_decide_eq_false_2 by (by intros ?).
  by rewrite bool_decide_eq_true_2.
Qed.


(** X17.  A handler posted through [AChoreographer_postFrameCallback]
    or [AChoreographer_postFrameCallback64] makes the post ask for a
    vsync (directly or by message), and a vsync dispatched later calls
    it: through the narrow form, with the timestamp as a [long], for
    the first function, and through the 64-bit form for the second. *)
Theorem AChoreographer_postFrameCallback_forms
    s caller now callback data now' timestamp :
  INT64_MIN ≤ now ≤ INT64_MAX →
  now < now' →
  callback ≠ nullptr →
  (∃ s1 ev s2 calls,
     AChoreographer_postFrameCallback caller now callback data s = Done ((), s1, ev) ∧
     (ev = [ScheduleVsync] ∨ ev = [SendMessage {| what := MSG_SCHEDULE_VSYNC |}]) ∧
     dispatchVsync to_long now' timestamp s1 = Done ((), s2, calls) ∧
     CallFrame callback (to_long timestamp) data ∈ calls) ∧
  (∃ s1 ev s2 calls,
     AChoreographer_postFrameCallback64 caller now callback data s = Done ((), s1, ev) ∧
     (ev = [ScheduleVsync] ∨ ev = [SendMessage {| what := MSG_SCHEDULE_VSYNC |}]) ∧
     dispatchVsync to_long now' timestamp s1 = Done ((), s2, calls) ∧
     CallFrame64 callback timestamp data ∈ calls).
Proof.
  intros Hrange Hdue Hnn.
  assert (INT64_MIN ≤ now + 0 ≤ INT64_MAX) as Hrange0 by lia.
  assert (now + 0 < now') as Hdue0 by lia.
  unfold AChoreographer_postFrameCallback, AChoreographer_postFrameCallback64.
  split.
  - pose proof (postFrameCallbackDelayed_spec s caller now callback nullptr data 0
                  Hrange0) as Hpost.
    destruct (posted_in_batch _ _ _ _ _ _ _ _ _ _ timestamp Hpost Hdue0)
      as (s2 & batch & Hrun & Hb).
    eexists _, _, _, _. split; [exact Hpost|]. split.
    { destruct (decide (0 ≤ 0)) as [_|?]; [|lia].
      destruct (decide (caller = mThreadId s)); auto. }
    split; [exact Hrun|].
    apply list_elem_of_bind. eexists. split; [|exact Hb].
    rewrite handler_calls_narrow by done. by left.
  - pose proof (postFrameCallbackDelayed_spec s caller now nullptr callback data 0
                  Hrange0) as Hpost.
    destruct (posted_in_batch _ _ _ _ _ _ _ _ _ _ timestamp Hpost Hdue0)
      as (s2 & batch & Hrun & Hb).
    eexists _, _, _, _. split; [exact Hpost|]. split.
    { destruct (decide (0 ≤ 0)) as [_|?]; [|lia].
      destruct (decide (caller = mThreadId s)); auto. }
    split; [exact Hrun|].
    apply list_elem_of_bind. eexists. split; [|exact Hb].
    rewrite handler_calls_64 by done. by left.
Qed.

(** *** Runs *)

Lemma run_ops_cons o ops s s' ev :
  run_ops to_long (o :: ops) s = Done ((), s', ev) →
  ∃ s1 ev1 ev2,
    run_op to_long o s = Done ((), s1, ev1) ∧
    run_ops to_long ops s1 = Done ((), s', ev2) ∧
    ev = ev1 ++ ev2.
Proof.
  unfold run_ops. cbn [for_each]. rewrite run_bind.
  destruct (run_op to_long o s) as [[[[] s1] ev1]|]; [|done].
  destruct (for_each ops (run_op to_long) s1) as [[[[] s2] ev2]|] eqn:Hrest; [|done].
  intros [= <- <-]. by exists s1, ev1, ev2.
Qed.

Lemma scheduleCallbacks_Done s now s1 ev :
  scheduleCallbacks now s = Done ((), s1, ev) →
  s1 = s ∧ (ev = [] ∨ ev = [ScheduleVsync]).
Proof.
  unfold scheduleCallbacks. rewrite run_bind. unfold top. rewrite run_bind, run_get.
  destruct (pq_top (mFrameCallbacks s)); [|done]. cbn [mret M_ret].
  case_bool_decide; intros [= <- <-]; auto.
Qed.

Lemma handleMessage_Done s now message s1 ev :
  handleMessage now message s = Done ((), s1, ev) →
  s1 = s ∧ (ev = [] ∨ ev = [ScheduleVsync]).
Proof.
  unfold handleMessage. case_bool_decide; [apply scheduleCallbacks_Done|].
  case_bool_decide; intros [= <- <-]; auto.
Qed.

Lemma dispatchConfigChanged_Done s vsyncPeriod s1 ev :
  dispatchConfigChanged vsyncPeriod s = Done ((), s1, ev) →
  (s1 = s ∧ ev = []) ∨
  (∃ cb v, mRefreshRateCallbacks s = cb :: v ∧
           mVsyncPeriod s ≠ vsyncPeriod ∧ rr_callback cb ≠ nullptr ∧
           s1 = with_mVsyncPeriod vsyncPeriod s ∧
           ev = [CallRefreshRate (rr_callback cb) vsyncPeriod (rr_data cb)]).
Proof.
  rewrite dispatchConfigChanged_spec.
  destruct (decide (mVsyncPeriod s = vsyncPeriod)); [intros [= <- <-]; auto|].
  destruct (mRefreshRateCallbacks s) as [|cb v]; [intros [= <- <-]; auto|].
  destruct (decide (rr_callback cb = nullptr)); [done|].
  intros [= <- <-]. right. eauto 8.
Qed.

Lemma frame_calls_of_batch timestamp (batch : list FrameCallback) :
  length (filter is_frame_call (batch ≫= handler_calls to_long timestamp)) =
  length (filter has_handler batch).
Proof.
  induction batch as [|fc batch IH]; [done|].
  rewrite bind_cons, filter_app, length_app, IH. unfold handler_calls.
  destruct (decide (has_handler fc)) as [Hh|Hh].
  - rewrite (filter_cons_True has_handler) by done.
    destruct Hh as [H64|H32].
    + by rewrite bool_decide_eq_true_2.
    + case_bool_decide; [done|]. by rewrite bool_decide_eq_true_2.
  - rewrite (filter_cons_False has_handler) by done.
    unfold has_handler in Hh.
    rewrite !bool_decide_eq_false_2; [done|tauto..].
Qed.

(** What one entry point does to the queue and to the listeners. *)
Lemma run_op_queue o s s1 ev :
  run_op to_long o s = Done ((), s1, ev) →
  (length (filter is_frame_call ev) + length (filter has_handler (queued s1)) =
   length (filter has_handler (queued s)) + length (filter has_handler (posted o)))%nat.
Proof.
  destruct o as [caller now cb cb64 data delay|cb data|cb|now message
                 |now timestamp| |vsyncPeriod]; simpl.
  - intros Hpost.
    pose proof (postFrameCallbackDelayed_Done _ _ _ _ _ _ _ _ _ Hpost) as Hrange.
    rewrite postFrameCallbackDelayed_spec in Hpost by done.
    injection Hpost as <- <-.
    rewrite queued_with_mFrameCallbacks, pq_push_items.
    rewrite (filter_cons has_handler), (filter_cons has_handler _ []).
    unfold queued. repeat case_decide; simpl; lia.
  - intros [= <- <-]. simpl. unfold queued. simpl. lia.
  - destruct (unregisterRefreshRateCallback_spec s cb) as (v & _ & ->).
    intros [= <- <-]. unfold queued. case_decide; simpl; lia.
  - intros [-> [-> | ->]]%handleMessage_Done; simpl; lia.
  - destruct (dispatchVsync_spec to_long now timestamp s)
      as (batch & q' & -> & Hperm & _).
    intros [= <- <-]. rewrite frame_calls_of_batch, queued_with_mFrameCallbacks.
    rewrite Hperm, filter_app, length_app. simpl. lia.
  - intros [= <- <-]. simpl. lia.
  - intros [[-> ->]|(cb & v & _ & _ & _ & -> & ->)]%dispatchConfigChanged_Done;
      unfold queued; simpl; lia.
Qed.

(** X6.  Along any run of the entry points that has a defined result,
    no frame callback is lost or called twice: the number of frame
    handler calls made plus the number of callbacks with a handler still
    queued is the number of such callbacks queued at the start plus the
    number posted by the run. *)
Theorem frame_callbacks_conserved ops s s' ev :
  run_ops to_long ops s = Done ((), s', ev) →
  (length (filter is_frame_call ev) + length (filter has_handler (queued s')) =
   length (filter has_handler (queued s)) +
   length (filter has_handler (ops ≫= posted)))%nat.
Proof.
  revert s ev. induction ops as [|o ops IH]; intros s ev.
  - intros [= <- <-]. simpl. lia.
  - intros (s1 & ev1 & ev2 & Hop & Hrun & ->)%run_ops_cons.
    apply run_op_queue in Hop. apply IH in Hrun.
    rewrite bind_cons, !filter_app, !length_app. lia.
Qed.

Lemma run_op_listeners o s s1 ev :
  run_op to_long o s = Done ((), s1, ev) →
  length (mRefreshRateCallbacks s1) =
    (length (mRefreshRateCallbacks s) + length (registered o))%nat ∧
  (mRefreshRateCallbacks s ≠ [] →
   ToggleConfigEvents eConfigChangedSuppress ∉ ev).
Proof.
  destruct o as [caller now cb cb64 data delay|cb data|cb|now message
                 |now timestamp| |vsyncPeriod]; simpl.
  - intros Hpost.
    pose proof (postFrameCallbackDelayed_Done _ _ _ _ _ _ _ _ _ Hpost) as Hrange.
    rewrite postFrameCallbackDelayed_spec in Hpost by done.
    injection Hpost as <- <-. split; [simpl; lia|]. intros _.
    repeat case_decide; by intros [=]%list_elem_of_singleton.
  - intros [= <- <-]. simpl. rewrite length_app. split; [done|].
    intros _. by intros [=]%list_elem_of_singleton.
  - destruct (unregisterRefreshRateCallback_spec s cb) as (v & Hlen & ->).
    intros [= <- <-]. simpl. split; [lia|]. intros Hne.
    rewrite decide_False by done. apply not_elem_of_nil.
  - intros [-> Hev]%handleMessage_Done. split; [lia|]. intros _.
    destruct Hev as [-> | ->]; [apply not_elem_of_nil|].
    by intros [=]%list_elem_of_singleton.
  - destruct (dispatchVsync_spec to_long now timestamp s)
      as (batch & q' & -> & _).
    intros [= <- <-]. split; [simpl; lia|]. intros _.
    intros (fc & Hin & _)%list_elem_of_bind. revert Hin. unfold handler_calls.
    repeat case_bool_decide;
      first [by intros [=]%list_elem_of_singleton | by intros ?%elem_of_nil].
  - intros [= <- <-]. split; [lia|]. intros _. apply not_elem_of_nil.
  - intros [[-> ->]|(cb & v & _ & _ & _ & -> & ->)]%dispatchConfigChanged_Done;
      (split; [simpl; lia|]); intros _;
      [apply not_elem_of_nil | by intros [=]%list_elem_of_singleton].
Qed.

Lemma run_op_mThreadId o s s1 ev :
  run_op to_long o s = Done ((), s1, ev) → mThreadId s1 = mThreadId s.
Proof.
  destruct o as [caller now cb cb64 data delay|cb data|cb|now message
                 |now timestamp| |vsyncPeriod]; simpl.
  - intros Hpost.
    pose proof (postFrameCallbackDelayed_Done _ _ _ _ _ _ _ _ _ Hpost) as Hrange.
    rewrite postFrameCallbackDelayed_spec in Hpost by done.
    by injection Hpost as <- _.
  - by intros [= <- _].
  - destruct (unregisterRefreshRateCallback_spec s cb) as (v & _ & ->).
    by intros [= <- _].
  - by intros [-> _]%handleMessage_Done.
  - destruct (dispatchVsync_spec to_long now timestamp s) as (batch & q' & -> & _).
    by intros [= <- _].
  - by intros [= <- _].
  - by intros [[-> _]|(cb & v & _ & _ & _ & -> & _)]%dispatchConfigChanged_Done.
Qed.

Lemma run_ops_mThreadId ops s s' ev :
  run_ops to_long ops s = Done ((), s', ev) → mThreadId s' = mThreadId s.
Proof.
  revert s ev. induction ops as [|o ops IH]; intros s ev.
  - by intros [= <- _].
  - intros (s1 & ev1 & ev2 & Hop & Hrun & _)%run_ops_cons.
    apply run_op_mThreadId in Hop. apply IH in Hrun. congruence.
Qed.

(** X12.  Along any run with a defined result the listener vector
    grows by one entry per registration and never shrinks, whatever is
    unregistered. *)
Theorem listeners_only_grow ops s s' ev :
  run_ops to_long ops s = Done ((), s', ev) →
  length (mRefreshRateCallbacks s') =
    (length (mRefreshRateCallbacks s) + length (ops ≫= registered))%nat.
Proof.
  revert s ev. induction ops as [|o ops IH]; intros s ev.
  - intros [= <- <-]. simpl. lia.
  - intros (s1 & ev1 & ev2 & Hop & Hrun & ->)%run_ops_cons.
    apply run_op_listeners in Hop as [Hop _]. apply IH in Hrun.
    rewrite bind_cons, length_app. lia.
Qed.

(** X13.  Once the listener vector is not empty, no run with a defined
    result ever signals the owner to suppress configuration changes. *)
Theorem config_events_never_suppressed ops s s' ev :
  mRefreshRateCallbacks s ≠ [] →
  run_ops to_long ops s = Done ((), s', ev) →
  ToggleConfigEvents eConfigChangedSuppress ∉ ev.
Proof.
  revert s ev. induction ops as [|o ops IH]; intros s ev Hne.
  - intros [= <- <-]. apply not_elem_of_nil.
  - intros (s1 & ev1 & ev2 & Hop & Hrun & ->)%run_ops_cons.
    apply run_op_listeners in Hop as [Hlen Hev].
    rewrite not_elem_of_app. split; [by apply Hev|].
    apply (IH s1); [|done].
    intros Hnil. rewrite Hnil in Hlen. simpl in Hlen.
    destruct (mRefreshRateCallbacks s); [done|]. simpl in Hlen. lia.
Qed.

(** *** Refresh-rate listeners *)

Lemma unregisterRefreshRateCallback_run s cb :
  unregisterRefreshRateCallback cb s =
    Done ((),
          with_mRefreshRateCallbacks
            (remove_if (λ callback, bool_decide (cb = rr_callback callback))
               (mRefreshRateCallbacks s)).1 s,
          if decide (mRefreshRateCallbacks s = []) then
            [ToggleConfigEvents eConfigChangedSuppress]
          else []).
Proof.
  unfold unregisterRefreshRateCallback, mbind, M_bind, set_mRefreshRateCallbacks,
    modify, get. cbn [mRefreshRateCallbacks with_mRefreshRateCallbacks].
  pose proof (remove_if_length (λ callback, bool_decide (cb = rr_callback callback))
                (mRefreshRateCallbacks s)) as Hlen.
  destruct (remove_if _ (mRefreshRateCallbacks s)).1 as [|x v'] eqn:Hv;
    destruct (mRefreshRateCallbacks s) as [|y v0]; done.
Qed.

(** X10.  [unregisterRefreshRateCallback] leaves in the vector the
    listeners with other handlers, in order, followed by what the
    vector held at the positions after them; it signals the owner to
    suppress configuration changes exactly when the vector was empty
    before the call. *)
Theorem unregisterRefreshRateCallback_shifts s cb :
  let v := mRefreshRateCallbacks s in
  let kept := filter (λ l, rr_callback l ≠ cb) v in
  unregisterRefreshRateCallback cb s =
    Done ((), with_mRefreshRateCallbacks (kept ++ drop (length kept) v) s,
          if decide (v = []) then [ToggleConfigEvents eConfigChangedSuppress]
          else []).
Proof.
  intros v kept. rewrite unregisterRefreshRateCallback_run, remove_if_spec.
  cbn [fst]. fold v.
  replace (filter (λ x, bool_decide (cb = rr_callback x) = false) v) with kept; [done|].
  apply list_filter_iff. intros l. rewrite bool_decide_eq_false. naive_solver.
Qed.

(** X11.  Unregistering a handler that no listener has leaves the
    object as it was; the only effect, on an empty vector, is the
    signal to suppress configuration changes. *)
Theorem unregisterRefreshRateCallback_absent s cb :
  Forall (λ l, rr_callback l ≠ cb) (mRefreshRateCallbacks s) →
  unregisterRefreshRateCallback cb s =
    Done ((), s,
          if decide (mRefreshRateCallbacks s = []) then
            [ToggleConfigEvents eConfigChangedSuppress]
          else []).
Proof.
  intros Habsent. rewrite unregisterRefreshRateCallback_run, remove_if_spec.
  cbn [fst]. rewrite filter_all.
  - rewrite drop_all, app_nil_r. by destruct s.
  - eapply Forall_impl; [exact Habsent|]. intros l Hl.
    apply bool_decide_eq_false. naive_solver.
Qed.

(** X7.  When [dispatchConfigChanged] has a defined result, the same
    call repeated right after it calls no listener and changes
    nothing. *)
Theorem dispatchConfigChanged_repeated s vsyncPeriod s1 ev :
  dispatchConfigChanged vsyncPeriod s = Done ((), s1, ev) →
  dispatchConfigChanged vsyncPeriod s1 = Done ((), s1, []).
Proof.
  intros Hrun.
  destruct (dispatchConfigChanged_Done _ _ _ _ Hrun)
    as [[-> ->]|(cb & v & Hv & Hne & Hnn & -> & ->)]; [done|].
  rewrite dispatchConfigChanged_spec. by rewrite decide_True.
Qed.

(** X8.  For a period that differs from the stored one,
    [dispatchConfigChanged] calls the first listener of the vector,
    when its handler is not null, and no other, and stores the
    period. *)
Theorem dispatchConfigChanged_first_listener s vsyncPeriod cb v :
  mRefreshRateCallbacks s = cb :: v →
  mVsyncPeriod s ≠ vsyncPeriod →
  rr_callback cb ≠ nullptr →
  dispatchConfigChanged vsyncPeriod s =
    Done ((), with_mVsyncPeriod vsyncPeriod s,
          [CallRefreshRate (rr_callback cb) vsyncPeriod (rr_data cb)]).
Proof.
  intros Hv Hne Hnn. rewrite dispatchConfigChanged_spec, Hv.
  by rewrite !decide_False.
Qed.

(** X9.  A change of period that arrives while no listener is
    registered is not stored: a listener registered afterwards is
    called when the same period arrives again. *)
Theorem change_without_listeners_not_recorded s vsyncPeriod cb data :
  mRefreshRateCallbacks s = [] →
  mVsyncPeriod s ≠ vsyncPeriod →
  cb ≠ nullptr →
  (dispatchConfigChanged vsyncPeriod ;;
   registerRefreshRateCallback cb data ;;
   dispatchConfigChanged vsyncPeriod) s =
    Done ((),
          with_mVsyncPeriod vsyncPeriod
            (with_mRefreshRateCallbacks
               [{| rr_callback := cb; rr_data := data |}] s),
          [ToggleConfigEvents eConfigChangedDispatch;
           CallRefreshRate cb vsyncPeriod data]).
Proof.
  intros Hv Hne Hnn. rewrite run_bind, dispatchConfigChanged_spec, Hv.
  rewrite decide_False by done. rewrite run_bind.
  unfold registerRefreshRateCallback at 1. rewrite run_bind.
  unfold set_mRefreshRateCallbacks, modify, toggleConfigEvents, emit. rewrite Hv.
  rewrite dispatchConfigChanged_spec.
  cbn [mRefreshRateCallbacks mVsyncPeriod with_mRefreshRateCallbacks app
       rr_callback rr_data].
  by rewrite !decide_False by done.
Qed.
End SchedulerFacts.

(** * Further properties of the thread-local instance *)
Section RegistryMore.
Context {Q : Type} `{!PriorityQueue FrameCallback FrameCallback_lt Q}.
Variable to_long : Z → Z.
Implicit Types (p : Process Q) (c : call_env) (t : N).

(** A non-null pointer that a call returns is the one its thread holds
    from then on. *)
Lemma getForThread_returned_held c p r p1 ev :
  getForThread c p = (r, p1, ev) → r ≠ nullptr → slot p1 (env_thread c) = r.
Proof.
  intros Hrun Hr.
  destruct (getForThread_cases _ _ _ _ _ Hrun)
    as [(-> & -> & _)|[(_ & -> & _)
       |(_ & _ & Hs1 & _ & _ & _ & [(-> & _)|(-> & _)])]]; done.
Qed.

Lemma getForThread_calls_returned_held cs p rs p2 i c r :
  Process_wf p → calls_ok cs p →
  getForThread_calls cs p = (rs, p2) →
  cs !! i = Some c → rs !! i = Some r → r ≠ nullptr →
  slot p2 (env_thread c) = r.
Proof.
  revert p rs i. induction cs as [|c0 cs IH]; intros p rs i Hwf Hok; simpl; [done|].
  destruct (getForThread c0 p) as [[r0 p1] ev] eqn:Hrun.
  destruct (getForThread_calls cs p1) as [rs' p2'] eqn:Hruns.
  intros [= <- <-]. simpl in Hok. rewrite Hrun in Hok. destruct Hok as [Hnew Hok].
  pose proof (getForThread_wf _ _ _ _ _ Hwf Hnew Hrun) as Hwf1.
  destruct i as [|i]; simpl.
  - intros [= <-] [= <-] Hr.
    destruct (getForThread_calls_kept _ _ _ _ Hwf1 Hok Hruns) as (_ & Hkept & _).
    rewrite Hkept; rewrite (getForThread_returned_held _ _ _ _ _ Hrun Hr); done.
  - intros Hc Hri Hr. by eapply (IH p1).
Qed.

(** X14.  In any sequence of calls of [getForThread] from the start of
    the process, two calls that return the same non-null pointer come
    from the same thread. *)
Theorem getForThread_never_shared cs rs p i j ci cj r :
  calls_ok cs Process_start →
  getForThread_calls cs Process_start = (rs, p) →
  cs !! i = Some ci → cs !! j = Some cj →
  rs !! i = Some r → rs !! j = Some r →
  r ≠ nullptr →
  env_thread ci = env_thread cj.
Proof.
  intros Hok Hrun Hci Hcj Hri Hrj Hr.
  pose proof (getForThread_calls_returned_held _ _ _ _ _ _ _
                Process_start_wf Hok Hrun Hci Hri Hr) as Hi.
  pose proof (getForThread_calls_returned_held _ _ _ _ _ _ _
                Process_start_wf Hok Hrun Hcj Hrj Hr) as Hj.
  destruct (getForThread_calls_kept _ _ _ _ Process_start_wf Hok Hrun)
    as ((_ & Hdistinct & _) & _).
  destruct (decide (env_thread ci = env_thread cj)) as [|Hne]; [done|].
  destruct (Hdistinct _ _ Hne); congruence.
Qed.

Lemma getForThread_owned c p r p1 ev :
  Process_wf p → new_ok p c → owned_by_holder p →
  getForThread c p = (r, p1, ev) → owned_by_holder p1.
Proof.
  intros (Hheap & _ & _) [Hnn Hfresh] Hown Hrun.
  revert Hrun. unfold getForThread.
  case_bool_decide as Hs; [|by intros [= _ <- _]].
  case_bool_decide as Hl; [by intros [= _ <- _]|].
  assert (∀ t o,
    slot {| gChoreographer := <[env_thread c := env_new c]> (gChoreographer p);
            heap := <[env_new c := Choreographer_new (env_looper c)
                                     (env_thread c) (env_displayId c)]> (heap p);
            initialized := initialized p |} t ≠ nullptr →
    <[env_new c := Choreographer_new (env_looper c)
                     (env_thread c) (env_displayId c)]> (heap p) !!
      slot {| gChoreographer := <[env_thread c := env_new c]> (gChoreographer p);
              heap := <[env_new c := Choreographer_new (env_looper c)
                                       (env_thread c) (env_displayId c)]> (heap p);
              initialized := initialized p |} t = Some o →
    mThreadId o = t) as Hstep.
  { intros t o. destruct (decide (t = env_thread c)) as [->|Hne].
    - rewrite slot_insert, lookup_insert_eq. by intros _ [= <-].
    - rewrite slot_insert_ne by done. intros Ht.
      assert (slot p t ≠ env_new c) as Hold.
      { intros Heq. destruct (Hheap t Ht) as [o' Ho']. congruence. }
      rewrite lookup_insert_ne by done. by apply Hown. }
  case_bool_decide; intros [= _ <- _]; exact Hstep.
Qed.

Lemma getForThread_calls_owned cs p rs p2 :
  Process_wf p → calls_ok cs p → owned_by_holder p →
  getForThread_calls cs p = (rs, p2) → owned_by_holder p2.
Proof.
  revert p rs. induction cs as [|c cs IH]; intros p rs Hwf Hok Hown; simpl.
  - by intros [= _ <-].
  - destruct (getForThread c p) as [[r p1] ev] eqn:Hrun.
    destruct (getForThread_calls cs p1) as [rs' p2'] eqn:Hruns.
    intros [= _ <-]. simpl in Hok. rewrite Hrun in Hok. destruct Hok as [Hnew Hok].
    eapply (IH p1); [by eapply getForThread_wf|done| |done].
    by eapply getForThread_owned.
Qed.

(** X15.  The object a thread holds after any sequence of calls of
    [getForThread] has that thread as [mThreadId], and keeps it along
    any run: a post without delay made by that thread on it requests
    the vsync directly, not by message. *)
Theorem getForThread_owner_posts_directly cs rs p t now cb cb64 data :
  calls_ok cs Process_start →
  getForThread_calls cs Process_start = (rs, p) →
  slot p t ≠ nullptr →
  INT64_MIN ≤ now ≤ INT64_MAX →
  ∃ o,
    heap p !! slot p t = Some o ∧
    mThreadId o = t ∧
    ∀ ops s ev,
      run_ops to_long ops o = Done ((), s, ev) →
      ∃ s1,
        postFrameCallbackDelayed t now cb cb64 data 0 s =
          Done ((), s1, [ScheduleVsync]).
Proof.
  intros Hok Hrun Ht Hrange.
  destruct (getForThread_calls_kept _ _ _ _ Process_start_wf Hok Hrun)
    as ((Hheap & _) & _).
  destruct (Hheap t Ht) as [o Ho].
  assert (owned_by_holder p) as Hown.
  { eapply getForThread_calls_owned; [apply Process_start_wf|done| |done].
    intros t' o'. unfold slot. simpl. by rewrite lookup_empty. }
  pose proof (Hown t o Ht Ho) as Howner.
  exists o. split; [done|]. split; [done|].
  intros ops s ev Hops. apply (run_ops_mThreadId to_long) in Hops.
  eexists. rewrite postFrameCallbackDelayed_spec by lia.
  destruct (decide (0 ≤ 0)) as [_|?]; [|lia].
  rewrite decide_True; [done|congruence].
Qed.

(** X16.  A call of [getForThread] that finds no looper leaves the
    thread-local pointer null, so a later call from the thread, made
    once the looper exists, creates and initialises the object and
    returns it. *)
Theorem getForThread_retry_after_no_looper p c1 c2 :
  slot p (env_thread c1) = nullptr →
  env_looper c1 = nullptr →
  env_thread c2 = env_thread c1 →
  env_looper c2 ≠ nullptr →
  env_initialize c2 = OK →
  ∃ p2,
    getForThread_calls [c1; c2] p = ([nullptr; env_new c2], p2) ∧
    slot p2 (env_thread c1) = env_new c2 ∧
    env_new c2 ∈ initialized p2.
Proof.
  intros Hs Hl1 Ht Hl2 Hi. simpl.
  rewrite getForThread_no_looper by done.
  unfold getForThread. rewrite Ht.
  rewrite bool_decide_eq_true_2, bool_decide_eq_false_2 by done.
  rewrite bool_decide_eq_false_2 by (by intros ?).
  rewrite slot_insert. eexists. split; [done|]. split; [apply slot_insert|].
  simpl. apply elem_of_union_l. by apply elem_of_singleton.
Qed.
End RegistryMore.

(** * The further properties at concrete inputs *)

(** X2 at a post delayed by 5 ms. *)
Lemma recheck_after_delay_requests_vsync_witness :
  let fc := {| callback := 7; callback64 := 0; data := 70;
               dueTime := 1000 + 5000000 |} in
  let s1 := with_mFrameCallbacks [fc] fresh in
  let ev := [SendMessageDelayed 5000000 {| what := MSG_SCHEDULE_CALLBACKS |}] in
  postFrameCallbackDelayed 1 1000 7 0 70 5000000 fresh = Done ((), s1, ev) ∧
  1000 + 5000000 ≤ 5001000 ∧
  handleMessage 5001000 {| what := MSG_SCHEDULE_CALLBACKS |} s1 =
    Done ((), s1, [ScheduleVsync]).
Proof.
  intros fc s1 ev.
  assert (postFrameCallbackDelayed 1 1000 7 0 70 5000000 fresh = Done ((), s1, ev))
    as Hpost by reflexivity.
  assert (1000 + 5000000 ≤ 5001000) as Hdue by lia.
  split; [done|]. split; [done|].
  exact (recheck_after_delay_requests_vsync fresh 1 1000 7 0 70 5000000 s1 ev
           5001000 Hpost Hdue).
Defined.

(** X3 at a vsync that comes before the only queued callback is due. *)
Lemma dispatchVsync_nothing_due_witness :
  let fc := {| callback := 7; callback64 := 0; data := 70;
               dueTime := 5001000 |} in
  let s := with_mFrameCallbacks [fc] fresh in
  Forall (λ fc, 2000000 ≤ dueTime fc) (queued s) ∧
  dispatchVsync long64 2000000 1900000 s = Done ((), s, []).
Proof.
  intros fc s.
  assert (Forall (λ fc, 2000000 ≤ dueTime fc) (queued s)) as Hall
    by (repeat constructor; simpl; lia).
  split; [done|].
  exact (dispatchVsync_nothing_due long64 s 2000000 1900000 Hall).
Defined.


(** X6 at two posts followed by a vsync. *)
Lemma frame_callbacks_conserved_witness :
  let ops := [PostFrameCallbackDelayed 1 0 7 0 70 0;
              PostFrameCallbackDelayed 1 0 8 0 80 1000000;
              DispatchVsync 1000020 999000] in
  let ev := [ScheduleVsync;
             SendMessageDelayed 1000000 {| what := MSG_SCHEDULE_CALLBACKS |};
             CallFrame 7 999000 70;
             CallFrame 8 999000 80] in
  run_ops long64 ops fresh = Done ((), fresh, ev) ∧
  (length (filter is_frame_call ev) + length (filter has_handler (queued fresh)) =
   length (filter has_handler (queued fresh)) +
   length (filter has_handler (ops ≫= posted)))%nat.
Proof.
  intros ops ev.
  assert (run_ops long64 ops fresh = Done ((), fresh, ev)) as Hrun by reflexivity.
  split; [done|].
  exact (frame_callbacks_conserved long64 ops fresh fresh ev Hrun).
Defined.

(** X7 at one listener and a new period. *)
Lemma dispatchConfigChanged_repeated_witness :
  let s := with_mRefreshRateCallbacks
             [{| rr_callback := 1; rr_data := 11 |}] fresh in
  let s1 := with_mVsyncPeriod 16666667 s in
  dispatchConfigChanged 16666667 s =
    Done ((), s1, [CallRefreshRate 1 16666667 11]) ∧
  dispatchConfigChanged 16666667 s1 = Done ((), s1, []).
Proof.
  intros s s1.
  assert (dispatchConfigChanged 16666667 s =
            Done ((), s1, [CallRefreshRate 1 16666667 11])) as Hrun by reflexivity.
  split; [done|].
  exact (dispatchConfigChanged_repeated s 16666667 s1 _ Hrun).
Defined.

(** X8 at two listeners. *)
Lemma dispatchConfigChanged_first_listener_witness :
  let cb := {| rr_callback := 1; rr_data := 11 |} in
  let v := [{| rr_callback := 2; rr_data := 22 |}] in
  let s := with_mRefreshRateCallbacks (cb :: v) fresh in
  mRefreshRateCallbacks s = cb :: v ∧
  mVsyncPeriod s ≠ 16666667 ∧
  rr_callback cb ≠ nullptr ∧
  dispatchConfigChanged 16666667 s =
    Done ((), with_mVsyncPeriod 16666667 s,
          [CallRefreshRate (rr_callback cb) 16666667 (rr_data cb)]).
Proof.
  intros cb v s.
  assert (mRefreshRateCallbacks s = cb :: v) as Hv by reflexivity.
  assert (mVsyncPeriod s ≠ 16666667) as Hne by done.
  assert (rr_callback cb ≠ nullptr) as Hnn by done.
  split; [done|]. split; [done|]. split; [done|].
  exact (dispatchConfigChanged_first_listener s 16666667 cb v Hv Hne Hnn).
Defined.

(** X9 at a fresh object. *)
Lemma change_without_listeners_not_recorded_witness :
  mRefreshRateCallbacks fresh = [] ∧
  mVsyncPeriod fresh ≠ 16666667 ∧
  1%N ≠ nullptr ∧
  (dispatchConfigChanged 16666667 ;;
   registerRefreshRateCallback 1 11 ;;
   dispatchConfigChanged 16666667) fresh =
    Done ((),
          with_mVsyncPeriod 16666667
            (with_mRefreshRateCallbacks
               [{| rr_callback := 1; rr_data := 11 |}] fresh),
          [ToggleConfigEvents eConfigChangedDispatch;
           CallRefreshRate 1 16666667 11]).
Proof.
  assert (mRefreshRateCallbacks fresh = []) as Hv by reflexivity.
  assert (mVsyncPeriod fresh ≠ 16666667) as Hne by done.
  assert (1%N ≠ nullptr) as Hnn by done.
  split; [done|]. split; [done|]. split; [done|].
  exact (change_without_listeners_not_recorded fresh 16666667 1 11 Hv Hne Hnn).
Defined.

(** X11 at one listener and another handler. *)
Lemma unregisterRefreshRateCallback_absent_witness :
  let s := with_mRefreshRateCallbacks
             [{| rr_callback := 1; rr_data := 11 |}] fresh in
  Forall (λ l, rr_callback l ≠ 2%N) (mRefreshRateCallbacks s) ∧
  unregisterRefreshRateCallback 2 s =
    Done ((), s,
          if decide (mRefreshRateCallbacks s = []) then
            [ToggleConfigEvents eConfigChangedSuppress]
          else []).
Proof.
  intros s.
  assert (Forall (λ l, rr_callback l ≠ 2%N) (mRefreshRateCallbacks s)) as Habsent
    by (repeat constructor; done).
  split; [done|].
  exact (unregisterRefreshRateCallback_absent s 2 Habsent).
Defined.

(** X12 at a registration followed by the unregistration. *)
Lemma listeners_only_grow_witness :
  let ops := [RegisterRefreshRateCallback 1 11; UnregisterRefreshRateCallback 1] in
  let s' := with_mRefreshRateCallbacks
              [{| rr_callback := 1; rr_data := 11 |}] fresh in
  let ev := [ToggleConfigEvents eConfigChangedDispatch] in
  run_ops long64 ops fresh = Done ((), s', ev) ∧
  length (mRefreshRateCallbacks s') =
    (length (mRefreshRateCallbacks fresh) + length (ops ≫= registered))%nat.
Proof.
  intros ops s' ev.
  assert (run_ops long64 ops fresh = Done ((), s', ev)) as Hrun by reflexivity.
  split; [done|].
  exact (listeners_only_grow long64 ops fresh s' ev Hrun).
Defined.

(** X13 at a second registration followed by the unregistration of the
    first listener. *)
Lemma config_events_never_suppressed_witness :
  let s := with_mRefreshRateCallbacks
             [{| rr_callback := 1; rr_data := 11 |}] fresh in
  let ops := [RegisterRefreshRateCallback 2 22; UnregisterRefreshRateCallback 1] in
  let s' := with_mRefreshRateCallbacks
              [{| rr_callback := 2; rr_data := 22 |};
               {| rr_callback := 2; rr_data := 22 |}] fresh in
  let ev := [ToggleConfigEvents eConfigChangedDispatch] in
  mRefreshRateCallbacks s ≠ [] ∧
  run_ops long64 ops s = Done ((), s', ev) ∧
  ToggleConfigEvents eConfigChangedSuppress ∉ ev.
Proof.
  intros s ops s' ev.
  assert (mRefreshRateCallbacks s ≠ []) as Hne by done.
  assert (run_ops long64 ops s = Done ((), s', ev)) as Hrun by reflexivity.
  split; [done|]. split; [done|].
  exact (config_events_never_suppressed long64 ops s s' ev Hne Hrun).
Defined.

(** X17 at a post from the owning thread. *)
Lemma AChoreographer_postFrameCallback_forms_witness :
  INT64_MIN ≤ 1000 ≤ INT64_MAX ∧
  1000 < 2000 ∧
  7%N ≠ nullptr ∧
  (∃ s1 ev s2 calls,
     AChoreographer_postFrameCallback 1 1000 7 70 fresh = Done ((), s1, ev) ∧
     (ev = [ScheduleVsync] ∨ ev = [SendMessage {| what := MSG_SCHEDULE_VSYNC |}]) ∧
     dispatchVsync long64 2000 1500 s1 = Done ((), s2, calls) ∧
     CallFrame 7 (long64 1500) 70 ∈ calls) ∧
  (∃ s1 ev s2 calls,
     AChoreographer_postFrameCallback64 1 1000 7 70 fresh = Done ((), s1, ev) ∧
     (ev = [ScheduleVsync] ∨ ev = [SendMessage {| what := MSG_SCHEDULE_VSYNC |}]) ∧
     dispatchVsync long64 2000 1500 s1 = Done ((), s2, calls) ∧
     CallFrame64 7 1500 70 ∈ calls).
Proof.
  assert (INT64_MIN ≤ 1000 ≤ INT64_MAX) as Hrange
    by (unfold INT64_MIN, INT64_MAX; lia).
  assert (1000 < 2000) as Hdue by lia.
  assert (7%N ≠ nullptr) as Hnn by done.
  split; [done|]. split; [done|]. split; [done|].
  exact (AChoreographer_postFrameCallback_forms long64 fresh 1 1000 7 70 2000 1500
           Hrange Hdue Hnn).
Defined.

(** X14 at two calls from thread 1. *)
Lemma getForThread_never_shared_witness :
  let c := {| env_thread := 1; env_looper := 100; env_new := 4096;
              env_displayId := None; env_initialize := OK |} in
  let c' := {| env_thread := 1; env_looper := 100; env_new := 8192;
               env_displayId := None; env_initialize := OK |} in
  let start : Process (list FrameCallback) := Process_start in
  let p := (getForThread_calls [c; c'] start).2 in
  calls_ok [c; c'] start ∧
  getForThread_calls [c; c'] start = ([4096%N; 4096%N], p) ∧
  [c; c'] !! 0%nat = Some c ∧ [c; c'] !! 1%nat = Some c' ∧
  [4096%N; 4096%N] !! 0%nat = Some 4096%N ∧
  [4096%N; 4096%N] !! 1%nat = Some 4096%N ∧
  4096%N ≠ nullptr ∧
  env_thread c = env_thread c'.
Proof.
  intros c c' start p.
  assert (calls_ok [c; c'] start) as Hok
    by (repeat split; try done; vm_compute; reflexivity).
  assert (getForThread_calls [c; c'] start = ([4096%N; 4096%N], p)) as Hrun
    by (vm_compute; reflexivity).
  assert ([c; c'] !! 0%nat = Some c) as Hci by reflexivity.
  assert ([c; c'] !! 1%nat = Some c') as Hcj by reflexivity.
  assert ([4096%N; 4096%N] !! 0%nat = Some 4096%N) as Hri by reflexivity.
  assert ([4096%N; 4096%N] !! 1%nat = Some 4096%N) as Hrj by reflexivity.
  assert (4096%N ≠ nullptr) as Hr by done.
  do 7 (split; [done|]).
  exact (getForThread_never_shared [c; c'] _ p 0 1 c c' 4096 Hok Hrun Hci Hcj
           Hri Hrj Hr).
Defined.

(** X15 at the first call of thread 1. *)
Lemma getForThread_owner_posts_directly_witness :
  let c := {| env_thread := 1; env_looper := 100; env_new := 4096;
              env_displayId := None; env_initialize := OK |} in
  let start : Process (list FrameCallback) := Process_start in
  let p := (getForThread_calls [c] start).2 in
  calls_ok [c] start ∧
  getForThread_calls [c] start = ([4096%N], p) ∧
  slot p 1 ≠ nullptr ∧
  INT64_MIN ≤ 1000 ≤ INT64_MAX ∧
  ∃ o,
    heap p !! slot p 1 = Some o ∧
    mThreadId o = 1%N ∧
    ∀ ops s ev,
      run_ops long64 ops o = Done ((), s, ev) →
      ∃ s1,
        postFrameCallbackDelayed 1 1000 7 0 70 0 s =
          Done ((), s1, [ScheduleVsync]).
Proof.
  intros c start p.
  assert (calls_ok [c] start) as Hok
    by (repeat split; try done; vm_compute; reflexivity).
  assert (getForThread_calls [c] start = ([4096%N], p)) as Hrun
    by (vm_compute; reflexivity).
  assert (slot p 1 ≠ nullptr) as Ht by (vm_compute; done).
  assert (INT64_MIN ≤ 1000 ≤ INT64_MAX) as Hrange
    by (unfold INT64_MIN, INT64_MAX; lia).
  do 4 (split; [done|]).
  exact (getForThread_owner_posts_directly long64 [c] _ p 1 1000 7 0 70
           Hok Hrun Ht Hrange).
Defined.

(** X16 at thread 1, first without a looper and then with one. *)
Lemma getForThread_retry_after_no_looper_witness :
  let c1 := {| env_thread := 1; env_looper := 0; env_new := 4096;
               env_displayId := None; env_initialize := OK |} in
  let c2 := {| env_thread := 1; env_looper := 100; env_new := 4096;
               env_displayId := None; env_initialize := OK |} in
  let start : Process (list FrameCallback) := Process_start in
  slot start (env_thread c1) = nullptr ∧
  env_looper c1 = nullptr ∧
  env_thread c2 = env_thread c1 ∧
  env_looper c2 ≠ nullptr ∧
  env_initialize c2 = OK ∧
  ∃ p2,
    getForThread_calls [c1; c2] start = ([nullptr; env_new c2], p2) ∧
    slot p2 (env_thread c1) = env_new c2 ∧
    env_new c2 ∈ initialized p2.
Proof.
  intros c1 c2 start.
  assert (slot start (env_thread c1) = nullptr) as Hs by reflexivity.
  assert (env_looper c1 = nullptr) as Hl1 by reflexivity.
  assert (env_thread c2 = env_thread c1) as Ht by reflexivity.
  assert (env_looper c2 ≠ nullptr) as Hl2 by done.
  assert (env_initialize c2 = OK) as Hi by reflexivity.
  do 5 (split; [done|]).
  exact (getForThread_retry_after_no_looper start c1 c2 Hs Hl1 Ht Hl2 Hi).
Defined.
